(** * Report aggregation and export routes (src/routes/reports.js)

    A shallow embedding of the route handlers of the car-finance back end:
    the SQL text of the raw queries, the ORM calls and the JavaScript
    post-processing are written as functions over an in-memory store of
    customers and payments.

    Conventions of the model
    - money amounts and counts are integers ([Z]); a value that can be
      SQL NULL / JavaScript [null] is an [option].  A sum is written as the
      exact sum, which is the sum the code computes while no running sum
      leaves the integers a double holds exactly; where a statement compares
      two sums that the code adds up separately, the sums are taken as
      JavaScript rounds them ([Double]);
    - the raw queries read the tables [customers] and [payments] through
      [req.db], the ORM calls read [Customers] and [Payments]: one [store]
      stands for either pair of tables;
    - dates are calendar days compared field by field, which is the order of
      the ISO text the store holds; [date('now')] and [new Date()] are the
      parameter [now] of the handlers;
    - a handler is modelled on its success path, the [catch] branch that
      answers 500 is modelled where a property depends on it (the filtered
      report). *)

From Stdlib Require Import ZArith List String Ascii Bool Lia Permutation Sorted.
From Stdlib Require Import DecimalString.
From Stdlib Require Import PrimFloat.
Import ListNotations.
Local Open Scope Z_scope.

(* ================================================================== *)
(** * JavaScript values *)
(* ================================================================== *)

Module Js.

(** [x || 0] on a number that may be [null] (or [NaN]). *)
Definition or_zero (v : option Z) : Z :=
  match v with
  | Some n => n
  | None => 0
  end.

(** [if (s)] on a query-string parameter: [undefined] and [''] are falsy. *)
Definition truthy (s : option string) : bool :=
  match s with
  | Some s => negb (s =? "")%string
  | None => false
  end.

(** [String(n)] for an integer. *)
Definition string_of_Z (n : Z) : string :=
  NilEmpty.string_of_int (Z.to_int n).

(** [`${v}`] for a string that may be [null]. *)
Definition string_of_nullable (v : option string) : string :=
  match v with
  | Some s => s
  | None => "null"%string
  end.

End Js.

(* ================================================================== *)
(** * Calendar dates *)
(* ================================================================== *)

Record date := mkDate { year : Z; month : Z; day : Z }.

Definition date_compare (a b : date) : comparison :=
  match year a ?= year b with
  | Eq => match month a ?= month b with
          | Eq => day a ?= day b
          | c => c
          end
  | c => c
  end.

Definition date_ltb (a b : date) : bool :=
  match date_compare a b with Lt => true | _ => false end.

Definition date_leb (a b : date) : bool :=
  match date_compare a b with Gt => false | _ => true end.

(** The ['%Y-%m'] bucket of a date. *)
Definition year_month := (Z * Z)%type.

Definition ym_leb (a b : year_month) : bool :=
  (fst a <? fst b) || ((fst a =? fst b) && (snd a <=? snd b)).

Definition ym_eqb (a b : year_month) : bool :=
  (fst a =? fst b) && (snd a =? snd b).

(* ================================================================== *)
(** * SQL building blocks *)
(* ================================================================== *)

Module Sql.

(** A comparison with a NULL operand is NULL, which a WHERE clause or a
    CASE WHEN treats as "not true". *)
Definition date_lt (d : option date) (now : date) : bool :=
  match d with
  | Some d => date_ltb d now
  | None => false
  end.

Definition date_le (d : option date) (now : date) : bool :=
  match d with
  | Some d => date_leb d now
  | None => false
  end.

(** [strftime('%Y-%m', d)]. *)
Definition strftime_Ym (d : option date) : option year_month :=
  match d with
  | Some d => Some (year d, month d)
  | None => None
  end.

(** NULL sorts before every value. *)
Definition null_first_leb {A : Type} (leb : A -> A -> bool)
    (a b : option A) : bool :=
  match a, b with
  | None, _ => true
  | Some _, None => false
  | Some x, Some y => leb x y
  end.

Definition option_eqb {A : Type} (eqb : A -> A -> bool)
    (a b : option A) : bool :=
  match a, b with
  | None, None => true
  | Some x, Some y => eqb x y
  | _, _ => false
  end.

(** [SUM(e)]: NULL inputs are skipped, and the sum of no value is NULL.
    The value is the exact sum of the integers; a sum of REAL values is
    rounded as it is added up, so that only a statement about one sum, not
    one that regroups or reorders the values, carries over to them. *)
Definition sum (vs : list (option Z)) : option Z :=
  fold_left (fun acc v =>
               match v with
               | Some x => Some (Js.or_zero acc + x)
               | None => acc
               end) vs None.

Definition is_some {A : Type} (v : option A) : bool :=
  match v with Some _ => true | None => false end.

(** [COUNT(e)]: the number of non-NULL values. *)
Definition count {A : Type} (vs : list (option A)) : Z :=
  Z.of_nat (List.length (filter is_some vs)).

Fixpoint somes {A : Type} (vs : list (option A)) : list A :=
  match vs with
  | [] => []
  | Some x :: vs' => x :: somes vs'
  | None :: vs' => somes vs'
  end.

(** [COUNT(DISTINCT e)] on an integer column. *)
Definition count_distinct (vs : list (option Z)) : Z :=
  Z.of_nat (List.length (nodup Z.eq_dec (somes vs))).

(** [MAX(e)] and [MIN(e)] on a date column. *)
Definition max_date (vs : list (option date)) : option date :=
  fold_left (fun acc v =>
               match acc, v with
               | _, None => acc
               | None, Some d => Some d
               | Some a, Some d => if date_ltb a d then Some d else Some a
               end) vs None.

Definition min_date (vs : list (option date)) : option date :=
  fold_left (fun acc v =>
               match acc, v with
               | _, None => acc
               | None, Some d => Some d
               | Some a, Some d => if date_ltb d a then Some d else Some a
               end) vs None.

(** [a LEFT JOIN b ON on]: a row of [a] without a partner is kept once,
    padded with NULLs. *)
Definition left_join {A B : Type} (on : A -> B -> bool)
    (l : list A) (r : list B) : list (A * option B) :=
  flat_map (fun a =>
              match filter (on a) r with
              | [] => [(a, None)]
              | m => map (fun b => (a, Some b)) m
              end) l.

(** [a INNER JOIN b ON on]. *)
Definition inner_join {A B : Type} (on : A -> B -> bool)
    (l : list A) (r : list B) : list (A * B) :=
  flat_map (fun a => map (fun b => (a, b)) (filter (on a) r)) l.

(** The distinct values of a list, in order of first appearance. *)
Fixpoint distinct {K : Type} (eqb : K -> K -> bool) (ks : list K) : list K :=
  match ks with
  | [] => []
  | k :: ks' => k :: filter (fun k' => negb (eqb k' k)) (distinct eqb ks')
  end.

(** [GROUP BY key]: one group per distinct key, holding the rows of that
    key in their original order. *)
Definition group_by {A K : Type} (eqb : K -> K -> bool) (key : A -> K)
    (rows : list A) : list (K * list A) :=
  map (fun k => (k, filter (fun r => eqb (key r) k) rows))
      (distinct eqb (map key rows)).

(** [ORDER BY]: a stable insertion sort for the order [leb]. *)
Fixpoint insert {A : Type} (leb : A -> A -> bool) (x : A) (l : list A)
    : list A :=
  match l with
  | [] => [x]
  | y :: l' => if leb x y then x :: l else y :: insert leb x l'
  end.

Definition order_by {A : Type} (leb : A -> A -> bool) (l : list A) : list A :=
  fold_right (insert leb) [] l.

(** ** LIKE

    SQLite's LIKE without an ESCAPE clause, on UTF-8 text: [%] matches any
    run of characters, [_] matches one character, which is one byte or a
    lead byte with the continuation bytes that follow it, every other
    character matches itself, upper and lower case ASCII letters being
    equal. *)

Definition to_lower (c : ascii) : ascii :=
  let n := nat_of_ascii c in
  if ((65 <=? n) && (n <=? 90))%nat then ascii_of_nat (n + 32) else c.

Definition ci_eqb (c d : ascii) : bool :=
  Ascii.eqb (to_lower c) (to_lower d).

Definition is_percent (c : ascii) : bool := Ascii.eqb c "%"%char.
Definition is_underscore (c : ascii) : bool := Ascii.eqb c "_"%char.

(** The first byte of a character of several bytes, [11xxxxxx]. *)
Definition is_lead (c : ascii) : bool := (192 <=? nat_of_ascii c)%nat.

(** A continuation byte, [10xxxxxx]. *)
Definition is_continuation (c : ascii) : bool :=
  let n := nat_of_ascii c in ((128 <=? n) && (n <? 192))%nat.

Fixpoint skip_continuation (s : list ascii) : list ascii :=
  match s with
  | [] => []
  | c :: s' => if is_continuation c then skip_continuation s' else s
  end.

(** What is left of [d :: s] after its first character. *)
Definition after_char (d : ascii) (s : list ascii) : list ascii :=
  if is_lead d then skip_continuation s else s.

Fixpoint like_chars (pat : list ascii) : list ascii -> bool :=
  match pat with
  | [] => fun s => match s with [] => true | _ :: _ => false end
  | c :: pat' =>
      if is_percent c then
        fix star (s : list ascii) : bool :=
          like_chars pat' s
          || match s with
             | [] => false
             | _ :: s' => star s'
             end
      else if is_underscore c then
        fun s => match s with
                 | [] => false
                 | d :: s' => like_chars pat' (after_char d s')
                 end
      else
        fun s => match s with
                 | [] => false
                 | d :: s' => ci_eqb c d && like_chars pat' s'
                 end
  end.

(** [value LIKE pattern]. *)
Definition like (value pattern : string) : bool :=
  like_chars (list_ascii_of_string pattern) (list_ascii_of_string value).

End Sql.

(* ================================================================== *)
(** * The store: customers and payments *)
(* ================================================================== *)

(** A spreadsheet cell value. *)
Inductive cell :=
| CNull
| CNum (n : Z)
| CText (s : string).

(** A customer.  The raw queries name the columns in snake case
    ([full_name], [leasing_amount]), the ORM calls in camel case
    ([fullName], [leasingAmount]); the record keeps one field for both.
    [calculateProfit] is the instance method the spreadsheet export probes
    for with [typeof ... === 'function']: [None] when the instance has no
    such function. *)
Record customer := mkCustomer {
  c_id : Z;
  full_name : string;
  phone_number : string;
  car_brand : option string;
  car_model : string;
  car_year : Z;
  car_purchase_cost : option Z;
  leasing_amount : option Z;
  monthly_installment : option Z;
  lease_duration : option Z;
  lease_start_date : option date;
  creation_date : option date;
  total_paid : option Z;
  c_status : string;
  calculateProfit : option (unit -> cell)
}.

(** A payment; [status] is the stored status text. *)
Record payment := mkPayment {
  p_id : Z;
  customer_id : Z;
  amount : Z;
  due_date : option date;
  payment_date : option date;
  status : string
}.

Record store := mkStore {
  customers : list customer;
  payments : list payment
}.

Definition status_is (s : string) (p : payment) : bool :=
  (status p =? s)%string.

(** [p.customer_id = c.id]. *)
Definition owns (c : customer) (p : payment) : bool :=
  customer_id p =? c_id c.

(** [EXISTS (SELECT 1 FROM payments p2 WHERE p2.customer_id = c.id
    AND p2.status = 'pending' AND p2.due_date < date('now'))]. *)
Definition exists_overdue (ps : list payment) (now : date) (c : customer)
    : bool :=
  existsb (fun p2 => owns c p2 && status_is "pending" p2
                     && Sql.date_lt (due_date p2) now) ps.

(** [EXISTS (SELECT 1 FROM payments p2 WHERE p2.customer_id = c.id
    AND p2.status = 'pending')]. *)
Definition exists_pending (ps : list payment) (c : customer) : bool :=
  existsb (fun p2 => owns c p2 && status_is "pending" p2) ps.

(** [CASE WHEN p.status = s THEN p.amount ELSE 0 END] on a joined row, whose
    payment side is NULL for a customer without payments. *)
Definition amount_if_status (s : string) (p : option payment) : option Z :=
  match p with
  | Some p => if status_is s p then Some (amount p) else Some 0
  | None => Some 0
  end.

(** [CASE WHEN cond THEN c.id END]. *)
Definition id_if (cond : customer -> bool) (c : customer) : option Z :=
  if cond c then Some (c_id c) else None.

(* ================================================================== *)
(** * GET /summary *)
(* ================================================================== *)

Module Summary.

(** The row [db.get] hands to the callback, with [total_profit] added by
    the handler.  The three sums are the raw SQL values and can be NULL. *)
Record t := mk {
  total_customers : Z;
  total_invested : option Z;
  total_collected : option Z;
  total_pending : option Z;
  overdue_customers : Z;
  completed_customers : Z;
  total_profit : Z
}.

(** [FROM customers c LEFT JOIN payments p ON c.id = p.customer_id]. *)
Definition rows (db : store) : list (customer * option payment) :=
  Sql.left_join owns (customers db) (payments db).

Definition get (db : store) (now : date) : t :=
  let rs := rows db in
  let total_invested := Sql.sum (map (fun r => leasing_amount (fst r)) rs) in
  let total_collected :=
    Sql.sum (map (fun r => amount_if_status "paid" (snd r)) rs) in
  let totalProfit :=
    Js.or_zero total_collected - Js.or_zero total_invested in
  {| total_customers :=
       Sql.count_distinct (map (fun r => Some (c_id (fst r))) rs);
     total_invested := total_invested;
     total_collected := total_collected;
     total_pending :=
       Sql.sum (map (fun r => amount_if_status "pending" (snd r)) rs);
     overdue_customers :=
       Sql.count_distinct
         (map (fun r => id_if (exists_overdue (payments db) now) (fst r)) rs);
     completed_customers :=
       Sql.count_distinct
         (map (fun r => id_if (fun c => negb (exists_pending (payments db) c))
                              (fst r)) rs);
     total_profit := totalProfit |}.

End Summary.

(* ================================================================== *)
(** * GET /monthly *)
(* ================================================================== *)

Module Monthly.

Record t := mk {
  period : option year_month;
  total_payments : Z;
  collected_amount : option Z;
  overdue_amount : option Z;
  overdue_payments : Z;
  completed_payments : Z
}.

(** [status = 'pending' AND "dueDate" <= date('now')]. *)
Definition is_overdue (now : date) (p : payment) : bool :=
  status_is "pending" p && Sql.date_le (due_date p) now.

Definition bucket_of (p : payment) : option year_month :=
  Sql.strftime_Ym (due_date p).

Definition period_eqb : option year_month -> option year_month -> bool :=
  Sql.option_eqb ym_eqb.

(** The select list, evaluated on one group. *)
Definition aggregate (now : date) (g : option year_month * list payment) : t :=
  let ps := snd g in
  {| period := fst g;
     total_payments := Z.of_nat (List.length ps);
     collected_amount :=
       Sql.sum (map (fun p => if status_is "paid" p then Some (amount p)
                              else Some 0) ps);
     overdue_amount :=
       Sql.sum (map (fun p => if is_overdue now p then Some (amount p)
                              else Some 0) ps);
     overdue_payments :=
       Sql.count (map (fun p => if is_overdue now p then Some 1 else None) ps);
     completed_payments :=
       Sql.count (map (fun p => if status_is "paid" p then Some 1 else None)
                      ps) |}.

(** [ORDER BY period DESC]: [a] comes before [b] when [b <= a]. *)
Definition period_desc (a b : t) : bool :=
  Sql.null_first_leb ym_leb (period b) (period a).

Definition groups (db : store) : list (option year_month * list payment) :=
  Sql.group_by period_eqb bucket_of (payments db).

Definition get (db : store) (now : date) : list t :=
  Sql.order_by period_desc (map (aggregate now) (groups db)).

End Monthly.

(* ================================================================== *)
(** * GET /customers *)
(* ================================================================== *)

Module CustomerReport.

Record query := mkQuery {
  q_status : option string;
  q_search : option string;
  q_car_brand : option string
}.

Record t := mk {
  customer_of : customer;
  total_payments : Z;
  payments_made : Z;
  total_paid_sum : option Z;
  remaining_amount : option Z;
  last_payment_date : option date;
  next_due_date : option date
}.

Definition condition := customer -> bool.

(** [`%${search}%`]. *)
Definition search_pattern (search : string) : string :=
  ("%" ++ search ++ "%")%string.

(** [(c.full_name LIKE ? OR c.phone_number LIKE ?)]. *)
Definition search_condition (search : string) : condition :=
  fun c => Sql.like (full_name c) (search_pattern search)
           || Sql.like (phone_number c) (search_pattern search).

(** [c.car_brand = ?], not true on a NULL brand. *)
Definition brand_condition (brand : string) : condition :=
  fun c => match car_brand c with
           | Some b => (b =? brand)%string
           | None => false
           end.

(** The [conditions] array after the three [if] blocks. *)
Definition conditions (ps : list payment) (now : date) (q : query)
    : list condition :=
  let c0 := [fun _ : customer => true] in
  let c1 :=
    if Js.truthy (q_status q) then
      match q_status q with
      | Some st =>
          if (st =? "overdue")%string then
            c0 ++ [exists_overdue ps now]
          else if (st =? "completed")%string then
            c0 ++ [fun c => negb (exists_pending ps c)]
          else c0
      | None => c0
      end
    else c0 in
  let c2 :=
    match q_search q with
    | Some s => if Js.truthy (q_search q) then c1 ++ [search_condition s]
                else c1
    | None => c1
    end in
  match q_car_brand q with
  | Some b => if Js.truthy (q_car_brand q) then c2 ++ [brand_condition b]
              else c2
  | None => c2
  end.

(** [WHERE ${conditions.join(' AND ')}]. *)
Definition where_clause (ps : list payment) (now : date) (q : query)
    (c : customer) : bool :=
  forallb (fun cond => cond c) (conditions ps now q).

(** The select list on one group of joined rows; [c.*] is read from the
    first row of the group. *)
Definition aggregate (g : Z * list (customer * option payment)) : option t :=
  match snd g with
  | [] => None
  | r :: _ =>
      let ps := map snd (snd g) in
      let paid_only {A} (f : payment -> option A) (p : option payment) :=
        match p with
        | Some p => if status_is "paid" p then f p else None
        | None => None
        end in
      let pending_only {A} (f : payment -> option A) (p : option payment) :=
        match p with
        | Some p => if status_is "pending" p then f p else None
        | None => None
        end in
      Some {| customer_of := fst r;
              total_payments :=
                Sql.count (map (option_map p_id) ps);
              payments_made :=
                Sql.count (map (paid_only (fun _ => Some 1)) ps);
              total_paid_sum := Sql.sum (map (amount_if_status "paid") ps);
              remaining_amount :=
                Sql.sum (map (amount_if_status "pending") ps);
              last_payment_date :=
                Sql.max_date (map (paid_only payment_date) ps);
              next_due_date :=
                Sql.min_date (map (pending_only due_date) ps) |}
  end.

(** [ORDER BY c.creation_date DESC]. *)
Definition created_desc (a b : t) : bool :=
  Sql.null_first_leb date_leb (creation_date (customer_of b))
                     (creation_date (customer_of a)).

Definition groups (db : store) (now : date) (q : query)
    : list (Z * list (customer * option payment)) :=
  Sql.group_by Z.eqb (fun r => c_id (fst r))
    (filter (fun r => where_clause (payments db) now q (fst r))
            (Sql.left_join owns (customers db) (payments db))).

Definition get (db : store) (now : date) (q : query) : list t :=
  Sql.order_by created_desc (Sql.somes (map aggregate (groups db now q))).

End CustomerReport.

(* ================================================================== *)
(** * GET /filtered *)
(* ================================================================== *)

(** What a handler sends: [res.json(body)] or
    [res.status(code).json({ message })]. *)
Inductive response (A : Type) :=
| Json (body : A)
| Failure (code : Z) (message : string).

Arguments Json {A} body.
Arguments Failure {A} code message.

Module Filtered.

(** [new Date(s)] is a date or the Invalid Date object. *)
Inductive js_date :=
| Valid (d : date)
| Invalid.

Record query := mkQuery {
  startDate : option string;
  endDate : option string;
  customerName : option string;
  carBrand : option string;
  paymentStatus : option string
}.

(** [whereClause]: the [dueDate] key holds the [Op.between] pair. *)
Record payment_where := mkWhere {
  w_dueDate : option (js_date * js_date);
  w_status : option string
}.

(** [customerWhereClause]: the [Op.iLike] patterns. *)
Record customer_where := mkCustomerWhere {
  w_name : option string;
  w_carBrand : option string
}.

(** The parameter when it is truthy. *)
Definition present (s : option string) : option string :=
  if Js.truthy s then s else None.

Definition wrap (s : string) : string := ("%" ++ s ++ "%")%string.

Section Handler.

(** The joined rows the ORM returns. *)
Variable Row : Type.
(** The [Date] constructor. *)
Variable new_Date : string -> js_date.
(** [Payment.findAll] with the [include] on [Customer] and the
    [dueDate ASC] order; [None] when the call throws.  The ORM and the
    models of [../models] are not part of this file: what the call answers
    to a where clause is left open. *)
Variable findAll : payment_where -> customer_where -> option (list Row).

Definition whereClause (q : query) : payment_where :=
  {| w_dueDate :=
       match present (startDate q), present (endDate q) with
       | Some s, Some e => Some (new_Date s, new_Date e)
       | _, _ => None
       end;
     w_status := present (paymentStatus q) |}.

Definition customerWhereClause (q : query) : customer_where :=
  {| w_name := option_map wrap (present (customerName q));
     w_carBrand := option_map wrap (present (carBrand q)) |}.

Definition get (q : query) : response (list Row) :=
  match findAll (whereClause q) (customerWhereClause q) with
  | Some rows => Json rows
  | None => Failure 500 "Server error"
  end.

End Handler.

End Filtered.

(* ================================================================== *)
(** * GET /customer/:customerId/history *)
(* ================================================================== *)

(** [ORDER BY dueDate ASC] on payments. *)
Definition due_date_asc (a b : payment) : bool :=
  Sql.null_first_leb date_leb (due_date a) (due_date b).

Module History.

Record t := mk {
  totalAmount : Z;
  paidAmount : Z;
  remainingAmount : Z;
  payments_of : list payment
}.

(** [Payment.findAll({ where: { customerId }, order: [['dueDate','ASC']] })]. *)
Definition findAll (db : store) (customerId : Z) : list payment :=
  Sql.order_by due_date_asc
    (filter (fun p => customer_id p =? customerId) (payments db)).

(** [ps.reduce((sum, p) => sum + p.amount, 0)], as the exact sum;
    [HistoryDouble] has the sum as JavaScript rounds it. *)
Definition reduce_amount (ps : list payment) : Z :=
  fold_left (fun sum p => sum + amount p) ps 0.

Definition get (db : store) (customerId : Z) : t :=
  let payments := findAll db customerId in
  {| totalAmount := reduce_amount payments;
     paidAmount := reduce_amount (filter (status_is "paid") payments);
     remainingAmount := reduce_amount (filter (status_is "pending") payments);
     payments_of := payments |}.

End History.

(* ================================================================== *)
(** * GET /dashboard *)
(* ================================================================== *)

Module Dashboard.

(** One element of the array [Model.count] resolves to when it is given a
    [group] option: the grouping key and the count of that group. *)
Record group_count := mkGroup { g_id : Z; g_count : Z }.

(** The values that reach the [stats] object. *)
Inductive value :=
| VNull
| VNum (n : Z)
| VGroups (gs : list group_count).

(** [v || 0]: [null] and [0] give [0], a number stays, and an array, empty
    or not, is truthy and stays. *)
Definition or_zero (v : value) : value :=
  match v with
  | VNull => VNum 0
  | VNum n => VNum n
  | VGroups gs => VGroups gs
  end.

Definition of_sum (v : option Z) : value :=
  match v with
  | Some n => VNum n
  | None => VNull
  end.

Record t := mk {
  totalCustomers : value;
  activeLeases : value;
  fullyPaidCustomers : value;
  monthlyPayments : value;
  totalInvested : value;
  totalCollected : value;
  totalUnpaid : value;
  overduePayments : value;
  totalProfit : value
}.

(** The join of both includes: [ON Customer.id = Payments.customerId AND
    Payments.status = 'pending']. *)
Definition on_pending (c : customer) (p : payment) : bool :=
  owns c p && status_is "pending" p.

(** [Customer.count] with the required include: the joined rows are
    counted. *)
Definition count_active (db : store) : value :=
  VNum (Z.of_nat (List.length
                    (Sql.inner_join on_pending (customers db) (payments db)))).

(** [HAVING COUNT(CASE WHEN Payments.status = "pending" THEN 1 END) = 0]. *)
Definition having_no_pending (g : Z * list (customer * option payment))
    : bool :=
  Sql.count (map (fun r => match snd r with
                           | Some p => if status_is "pending" p
                                       then Some 1 else None
                           | None => None
                           end) (snd g)) =? 0.

(** [Customer.count] with the optional include, [having] and
    [group: ['Customer.id']]: with a [group] the call resolves to one
    [{ id, count }] element per group that passes HAVING, not to a
    number. *)
Definition count_fully_paid (db : store) : value :=
  VGroups
    (map (fun g => {| g_id := fst g;
                      g_count := Sql.count (map (fun r => Some (c_id (fst r)))
                                                (snd g)) |})
         (filter having_no_pending
                 (Sql.group_by Z.eqb (fun r => c_id (fst r))
                    (Sql.left_join on_pending (customers db) (payments db))))).

(** [parseFloat(x) || 0] and [parseInt(x) || 0] on a numeric attribute. *)
Definition parse_or_zero (v : option Z) : Z := Js.or_zero v.

Definition customerProfit (c : customer) : Z :=
  let monthlyPayment := parse_or_zero (monthly_installment c) in
  let leaseDuration := parse_or_zero (lease_duration c) in
  let leasingAmount := parse_or_zero (leasing_amount c) in
  monthlyPayment * leaseDuration - leasingAmount.

(** [customers.reduce((sum, customer) => sum + customerProfit, 0)]. *)
Definition reduce_profit (cs : list customer) : Z :=
  fold_left (fun sum c => sum + customerProfit c) cs 0.

Definition get (db : store) (today : date) : t :=
  let totalCustomers := VNum (Z.of_nat (List.length (customers db))) in
  let activeLeases := count_active db in
  let fullyPaidCustomers := count_fully_paid db in
  let monthlyPayments :=
    of_sum (Sql.sum (map monthly_installment (customers db))) in
  let totalInvested :=
    of_sum (Sql.sum (map leasing_amount (customers db))) in
  let totalCollected :=
    of_sum (Sql.sum (map (fun p => Some (amount p))
                         (filter (status_is "paid") (payments db)))) in
  let totalUnpaid :=
    of_sum (Sql.sum (map (fun p => Some (amount p))
                         (filter (status_is "pending") (payments db)))) in
  let overduePayments :=
    VNum (Z.of_nat (List.length
            (filter (fun p => status_is "pending" p
                              && Sql.date_lt (due_date p) today)
                    (payments db)))) in
  let totalProfit := VNum (reduce_profit (customers db)) in
  {| totalCustomers := or_zero totalCustomers;
     activeLeases := or_zero activeLeases;
     fullyPaidCustomers := or_zero fullyPaidCustomers;
     monthlyPayments := or_zero monthlyPayments;
     totalInvested := or_zero totalInvested;
     totalCollected := or_zero totalCollected;
     totalUnpaid := or_zero totalUnpaid;
     overduePayments := or_zero overduePayments;
     totalProfit := or_zero totalProfit |}.

End Dashboard.

(* ================================================================== *)
(** * GET /export/customers/excel *)
(* ================================================================== *)

Module Excel.

Record column := mkColumn { header : string; key : string; width : Z }.

Record row := mkRow { cells : list cell; bold : bool }.

Record worksheet := mkSheet {
  sheet_name : string;
  columns : list column;
  rows : list row
}.

(** [workbook.addWorksheet(name)]. *)
Definition addWorksheet (name : string) : worksheet :=
  {| sheet_name := name; columns := []; rows := [] |}.

(** [worksheet.columns = cols]: the headers are written to row 1. *)
Definition set_columns (ws : worksheet) (cols : list column) : worksheet :=
  {| sheet_name := sheet_name ws;
     columns := cols;
     rows := {| cells := map (fun c => CText (header c)) cols;
                bold := false |} :: tl (rows ws) |}.

Fixpoint lookup (k : string) (values : list (string * cell)) : cell :=
  match values with
  | [] => CNull
  | (k', v) :: values' => if (k' =? k)%string then v else lookup k values'
  end.

(** [worksheet.addRow(object)]: a new last row, one cell per column, read
    from the object by the column key. *)
Definition addRow (ws : worksheet) (values : list (string * cell))
    : worksheet :=
  {| sheet_name := sheet_name ws;
     columns := columns ws;
     rows := rows ws ++ [ {| cells := map (fun c => lookup (key c) values)
                                          (columns ws);
                             bold := false |} ] |}.

(** [worksheet.getRow(1).font = { bold: true }]. *)
Definition set_first_row_bold (ws : worksheet) : worksheet :=
  {| sheet_name := sheet_name ws;
     columns := columns ws;
     rows := match rows ws with
             | r :: rs => {| cells := cells r; bold := true |} :: rs
             | [] => [ {| cells := []; bold := true |} ]
             end |}.

Definition the_columns : list column :=
  [ mkColumn "ID" "id" 5;
    mkColumn "Full Name" "fullName" 20;
    mkColumn "Phone Number" "phoneNumber" 15;
    mkColumn "Car Details" "carDetails" 25;
    mkColumn "Purchase Cost" "carPurchaseCost" 15;
    mkColumn "Leasing Amount" "leasingAmount" 15;
    mkColumn "Monthly Payment" "monthlyInstallment" 15;
    mkColumn "Lease Duration" "leaseDuration" 15;
    mkColumn "Start Date" "leaseStartDate" 15;
    mkColumn "Total Paid" "totalPaid" 15;
    mkColumn "Profit" "profit" 15;
    mkColumn "Status" "status" 15 ].

Definition number_cell (v : option Z) : cell :=
  match v with
  | Some n => CNum n
  | None => CNull
  end.

(** [`${customer.carBrand} ${customer.carModel} (${customer.carYear})`]. *)
Definition carDetails (c : customer) : string :=
  (Js.string_of_nullable (car_brand c) ++ " " ++ car_model c
     ++ " (" ++ Js.string_of_Z (car_year c) ++ ")")%string.

(** [ORDER BY creationDate DESC] on customers. *)
Definition created_desc (a b : customer) : bool :=
  Sql.null_first_leb date_leb (creation_date b) (creation_date a).

Definition findAll (db : store) : list customer :=
  Sql.order_by created_desc (customers db).

Section Workbook.

(** [new Date(d).toLocaleDateString()], which depends on the locale of
    the server. *)
Variable toLocaleDateString : option date -> string.

(** The object literal passed to [addRow]. *)
Definition row_object (c : customer) : list (string * cell) :=
  [ ("id", CNum (c_id c));
    ("fullName", CText (full_name c));
    ("phoneNumber", CText (phone_number c));
    ("carDetails", CText (carDetails c));
    ("carPurchaseCost", number_cell (car_purchase_cost c));
    ("leasingAmount", number_cell (leasing_amount c));
    ("monthlyInstallment", number_cell (monthly_installment c));
    ("leaseDuration", number_cell (lease_duration c));
    ("leaseStartDate", CText (toLocaleDateString (lease_start_date c)));
    ("totalPaid", number_cell (total_paid c));
    ("profit", match calculateProfit c with
               | Some f => f tt
               | None => CText ""
               end);
    ("status", CText (c_status c)) ]%string.

Definition export (db : store) : worksheet :=
  let worksheet := set_columns (addWorksheet "Customers") the_columns in
  let worksheet :=
    fold_left (fun ws customer => addRow ws (row_object customer))
              (findAll db) worksheet in
  set_first_row_bold worksheet.

End Workbook.

End Excel.

(* ================================================================== *)
(** * GET /export/payments/pdf: the summary block *)
(* ================================================================== *)

Module Pdf.

Record summary := mkSummary {
  totalPayments : Z;
  paidPayments : Z;
  overduePayments : Z;
  pendingPayments : Z;
  totalAmount : Z;
  paidAmount : Z;
  remainingAmount : Z
}.

Definition findAll (db : store) : list payment :=
  Sql.order_by due_date_asc (payments db).

(** [ps.filter(p => p.status === s).length]. *)
Definition count_status (s : string) (ps : list payment) : Z :=
  Z.of_nat (List.length (filter (status_is s) ps)).

(** [ps.reduce((sum, p) => sum + parseFloat(p.amount), 0)], as the exact
    sum; [PdfDouble] has the sum as JavaScript rounds it. *)
Definition reduce_amount (ps : list payment) : Z :=
  fold_left (fun sum p => sum + amount p) ps 0.

Definition summary_block (db : store) : summary :=
  let payments := findAll db in
  let totalPayments := Z.of_nat (List.length payments) in
  let paidPayments := count_status "paid" payments in
  let overduePayments := count_status "overdue" payments in
  let pendingPayments := count_status "pending" payments in
  let totalAmount := reduce_amount payments in
  let paidAmount := reduce_amount (filter (status_is "paid") payments) in
  {| totalPayments := totalPayments;
     paidPayments := paidPayments;
     overduePayments := overduePayments;
     pendingPayments := pendingPayments;
     totalAmount := totalAmount;
     paidAmount := paidAmount;
     remainingAmount := totalAmount - paidAmount |}.

End Pdf.

(* ================================================================== *)
(** * The authentication middleware *)
(* ================================================================== *)

Module Auth.

(** What a middleware does with a request: it calls [next()] or answers
    with a status and a message. *)
Inductive outcome :=
| Next
| Reject (code : Z) (message : string).

(** [s.startsWith(p)]. *)
Fixpoint startsWith (s p : string) : bool :=
  match p, s with
  | EmptyString, _ => true
  | String _ _, EmptyString => false
  | String a p', String b s' => Ascii.eqb a b && startsWith s' p'
  end.

(** [s.split(sep)] for a one-character separator: the pieces between the
    separators, of which there is always at least one. *)
Fixpoint split (sep : ascii) (s : string) : list string :=
  match s with
  | EmptyString => [EmptyString]
  | String c s' =>
      if Ascii.eqb c sep then EmptyString :: split sep s'
      else match split sep s' with
           | piece :: pieces => String c piece :: pieces
           | [] => [String c EmptyString]
           end
  end.

(** [checkToken]: [authorization] is the header, [None] when the request
    has none.  The token is looked at for presence only. *)
Definition checkToken (authorization : option string) : outcome :=
  match authorization with
  | None => Reject 401 "No token provided"
  | Some authHeader =>
      if negb (Js.truthy (Some authHeader))
         || negb (startsWith authHeader "Bearer ")
      then Reject 401 "No token provided"
      else
        match nth_error (split " " authHeader) 1 with
        | Some token =>
            if negb (Js.truthy (Some token)) then Reject 401 "Invalid token"
            else Next
        | None => Reject 401 "Invalid token"
        end
  end.

(** [router.get(path, checkToken, handler)]: the handler runs when the
    middleware calls [next()]. *)
Definition guarded {A : Type} (authorization : option string)
    (handler : response A) : response A :=
  match checkToken authorization with
  | Next => handler
  | Reject code message => Failure code message
  end.

End Auth.

(* ================================================================== *)
(** * GET /car-brands *)
(* ================================================================== *)

Module CarBrands.

(** [AVG(e)] is kept as the exact quotient of the sum by the count of the
    non-NULL values. *)
Record average := mkAverage { avg_sum : Z; avg_count : Z }.

Record t := mk {
  carBrand : string;
  total_cars : Z;
  total_leasing_amount : option Z;
  avg_monthly_installment : option average
}.

(** [AVG(e)]: NULL when every value is NULL. *)
Definition avg (vs : list (option Z)) : option average :=
  match Sql.sum vs with
  | Some total => Some {| avg_sum := total; avg_count := Sql.count vs |}
  | None => None
  end.

(** [FROM "Customers" WHERE "carBrand" IS NOT NULL], each row with its
    brand. *)
Definition branded (cs : list customer) : list (string * customer) :=
  Sql.somes (map (fun c => match car_brand c with
                           | Some b => Some (b, c)
                           | None => None
                           end) cs).

(** The select list on one group. *)
Definition aggregate (g : string * list (string * customer)) : t :=
  let cs := map snd (snd g) in
  {| carBrand := fst g;
     total_cars := Z.of_nat (List.length cs);
     total_leasing_amount := Sql.sum (map leasing_amount cs);
     avg_monthly_installment := avg (map monthly_installment cs) |}.

(** [ORDER BY COUNT( * ) DESC]. *)
Definition count_desc (a b : t) : bool := total_cars b <=? total_cars a.

Definition groups (db : store) : list (string * list (string * customer)) :=
  Sql.group_by String.eqb fst (branded (customers db)).

Definition get (db : store) : list t :=
  Sql.order_by count_desc (map aggregate (groups db)).

End CarBrands.

(* ================================================================== *)
(** * JavaScript arithmetic on amounts *)
(* ================================================================== *)

Module Double.

(** A JavaScript number is a binary64 double, which holds an integer
    exactly when the integer has at most 53 significant bits.  On numbers
    that hold integers, [a + b] is the integer sum rounded to 53 significant
    bits, to the nearest and to the even one on a tie (sums beyond the range
    of doubles, near [2^1024], are left aside). *)
Definition exact_limit : Z := 9007199254740992.

Definition round (z : Z) : Z :=
  let m := Z.abs z in
  if m <=? exact_limit then z
  else
    let e := Z.log2 m - 52 in
    let q := m / 2 ^ e in
    let r := m mod 2 ^ e in
    let half := 2 ^ (e - 1) in
    let q' := if r <? half then q
              else if half <? r then q + 1
              else if Z.even q then q else q + 1 in
    Z.sgn z * (q' * 2 ^ e).

(** [a + b] and [a - b] on numbers that hold integers. *)
Definition add (a b : Z) : Z := round (a + b).
Definition sub (a b : Z) : Z := round (a - b).

End Double.

(** The history handler with the sums as JavaScript computes them:
    [payments.reduce((sum, p) => sum + p.amount, 0)] adds doubles from left
    to right. *)
Module HistoryDouble.

Definition reduce_amount (ps : list payment) : Z :=
  fold_left (fun sum p => Double.add sum (amount p)) ps 0.

Definition get (db : store) (customerId : Z) : History.t :=
  let payments := History.findAll db customerId in
  {| History.totalAmount := reduce_amount payments;
     History.paidAmount := reduce_amount (filter (status_is "paid") payments);
     History.remainingAmount :=
       reduce_amount (filter (status_is "pending") payments);
     History.payments_of := payments |}.

End HistoryDouble.

(** The amounts of the PDF summary as JavaScript computes them:
    [reduce((sum, p) => sum + parseFloat(p.amount), 0)] and
    [totalAmount - paidAmount]. *)
Module PdfDouble.

Record amounts := mkAmounts {
  totalAmount : Z;
  paidAmount : Z;
  remainingAmount : Z
}.

Definition reduce_amount (ps : list payment) : Z :=
  fold_left (fun sum p => Double.add sum (amount p)) ps 0.

Definition summary_amounts (db : store) : amounts :=
  let payments := Pdf.findAll db in
  let totalAmount := reduce_amount payments in
  let paidAmount := reduce_amount (filter (status_is "paid") payments) in
  {| totalAmount := totalAmount;
     paidAmount := paidAmount;
     remainingAmount := Double.sub totalAmount paidAmount |}.

End PdfDouble.

(* ================================================================== *)
(** * Sample data *)
(* ================================================================== *)

Definition no_data : store := {| customers := []; payments := [] |}.

Definition sample_customer (id : Z) (name phone : string) (leasing : Z)
    (installment months : Z) : customer :=
  {| c_id := id; full_name := name; phone_number := phone;
     car_brand := Some "Kia"%string; car_model := "Rio"%string;
     car_year := 2019;
     car_purchase_cost := Some 9000; leasing_amount := Some leasing;
     monthly_installment := Some installment; lease_duration := Some months;
     lease_start_date := Some (mkDate 2024 1 1);
     creation_date := Some (mkDate 2024 1 1);
     total_paid := Some 0; c_status := "active"%string;
     calculateProfit := None |}.

Definition sample_payment (id owner amt : Z) (due : date) (st : string)
    : payment :=
  {| p_id := id; customer_id := owner; amount := amt; due_date := Some due;
     payment_date := None; status := st |}.

(** One lease of 10000 repaid by 24 installments of 500, nothing paid yet. *)
Definition one_lease : store :=
  {| customers := [sample_customer 1 "Ali" "0501" 10000 500 24];
     payments := [] |}.

(** Two customers with two payments each, and the same rows in another
    order. *)
Definition two_leases : store :=
  {| customers := [sample_customer 1 "Ali" "0501" 10000 500 24;
                   sample_customer 2 "Leyla" "0702" 6000 300 24];
     payments := [sample_payment 1 1 500 (mkDate 2024 2 1) "paid";
                  sample_payment 2 1 500 (mkDate 2024 3 1) "pending";
                  sample_payment 3 2 300 (mkDate 2024 2 1) "paid";
                  sample_payment 4 2 300 (mkDate 2024 3 1) "paid"] |}.

Definition a_day : date := mkDate 2024 6 15.

(** A customer whose only payment carries the stored status ['overdue']. *)
Definition overdue_only : store :=
  {| customers := [sample_customer 1 "Ali" "0501" 10000 500 24];
     payments := [sample_payment 1 1 100 (mkDate 2024 2 1) "overdue"] |}.

(** One paid payment of [2^53] and two pending payments of 1. *)
Definition large_amounts : store :=
  {| customers := [sample_customer 1 "Ali" "0501" 10000 500 24];
     payments := [sample_payment 1 1 9007199254740992 (mkDate 2024 1 1) "paid";
                  sample_payment 2 1 1 (mkDate 2024 2 1) "pending";
                  sample_payment 3 1 1 (mkDate 2024 3 1) "pending"] |}.

(* ================================================================== *)
(** * Vocabulary of the statements *)
(* ================================================================== *)

(** The plain sum of a list of integers. *)
Definition total (xs : list Z) : Z := fold_right Z.add 0 xs.

(** The rows one left-hand row contributes to a left join. *)
Definition padded {A B : Type} (a : A) (m : list B) : list (A * option B) :=
  match m with
  | [] => [(a, None)]
  | b :: m' => map (fun b => (a, Some b)) (b :: m')
  end.

(** Two neighbours of a list sorted for [leb]. *)
Definition in_order {A : Type} (leb : A -> A -> bool) (a b : A) : Prop :=
  leb a b = true.






(** The request [GET /customers?status=st]. *)
Definition status_only (st : string) : CustomerReport.query :=
  {| CustomerReport.q_status := Some st;
     CustomerReport.q_search := None;
     CustomerReport.q_car_brand := None |}.

(** The customer has a row in the report. *)
Definition listed (c : customer) (report : list CustomerReport.t) : Prop :=
  exists r, In r report /\ CustomerReport.customer_of r = c.



(** The ids of the customers without a pending payment. *)
Definition settled (db : store) (k : Z) : Prop :=
  exists c, In c (customers db) /\ c_id c = k
            /\ exists_pending (payments db) c = false.

(** What the [status] parameter asks of a customer. *)
Definition status_ok (ps : list payment) (now : date)
    (q : CustomerReport.query) (c : customer) : bool :=
  match CustomerReport.q_status q with
  | Some st =>
      if (st =? "overdue")%string then exists_overdue ps now c
      else if (st =? "completed")%string then negb (exists_pending ps c)
      else true
  | None => true
  end.

(** What the [search] parameter asks of a customer. *)
Definition search_ok (q : CustomerReport.query) (c : customer) : bool :=
  match CustomerReport.q_search q with
  | Some s => if (s =? "")%string then true
              else CustomerReport.search_condition s c
  | None => true
  end.

(** What the [car_brand] parameter asks of a customer. *)
Definition brand_ok (q : CustomerReport.query) (c : customer) : bool :=
  match CustomerReport.q_car_brand q with
  | Some b => if (b =? "")%string then true
              else CustomerReport.brand_condition b c
  | None => true
  end.


(* ================================================================== *)
(** * Facts about the SQL building blocks *)
(* ================================================================== *)

Section SumFacts.

Lemma total_app (xs ys : list Z) : total (xs ++ ys) = total xs + total ys.
Proof. induction xs as [|x xs IH]; simpl; [reflexivity | rewrite IH; ring]. Qed.

Lemma total_perm (xs ys : list Z) : Permutation xs ys -> total xs = total ys.
Proof.
  induction 1 as [| x l l' _ IH | x y l | l l' l'' _ IH1 _ IH2]; simpl.
  - reflexivity.
  - now rewrite IH.
  - ring.
  - now rewrite IH1.
Qed.

Lemma sum_fold (vs : list (option Z)) (acc : option Z) :
  fold_left (fun acc v => match v with
                          | Some x => Some (Js.or_zero acc + x)
                          | None => acc
                          end) vs acc
  = match acc, Sql.somes vs with
    | None, [] => None
    | _, xs => Some (Js.or_zero acc + total xs)
    end.
Proof.
  revert acc. induction vs as [|v vs IH]; intros acc; simpl.
  - destruct acc; simpl; [f_equal; ring | reflexivity].
  - destruct v as [x|]; [| apply IH].
    rewrite IH. simpl. destruct acc; simpl; f_equal; ring.
Qed.

(** SUM is NULL on no value, and the plain sum otherwise. *)
Lemma sum_somes (vs : list (option Z)) :
  Sql.sum vs = match Sql.somes vs with
               | [] => None
               | xs => Some (total xs)
               end.
Proof.
  unfold Sql.sum. rewrite sum_fold. destruct (Sql.somes vs); reflexivity.
Qed.


(** A reduce that adds [f p] to a running sum. *)
Lemma reduce_total {A : Type} (f : A -> Z) (l : list A) (acc : Z) :
  fold_left (fun sum a => sum + f a) l acc = acc + total (map f l).
Proof.
  revert acc. induction l as [|a l IH]; intros acc; simpl.
  - ring.
  - rewrite IH. ring.
Qed.

End SumFacts.

Lemma filter_perm {T : Type} (f : T -> bool) (l l' : list T) :
  Permutation l l' -> Permutation (filter f l) (filter f l').
Proof.
  induction 1 as [| x l l' _ IH | x y l | l l' l'' _ IH1 _ IH2]; simpl.
  - constructor.
  - destruct (f x); [now constructor | assumption].
  - destruct (f x), (f y); try apply Permutation_refl. apply perm_swap.
  - now transitivity (filter f l').
Qed.

Section JoinFacts.

Context {A B : Type}.

Lemma left_join_padded (on : A -> B -> bool) (l : list A) (r : list B) :
  Sql.left_join on l r = flat_map (fun a => padded a (filter (on a) r)) l.
Proof. reflexivity. Qed.

(** Every left-hand row is the left component of a joined row. *)
Lemma left_join_covers (on : A -> B -> bool) (l : list A) (r : list B)
    (a : A) :
  In a l -> exists p, In (a, p) (Sql.left_join on l r).
Proof.
  intros Ha. rewrite left_join_padded.
  destruct (filter (on a) r) as [|b m] eqn:E.
  - exists None. apply in_flat_map. exists a. split; [exact Ha |].
    rewrite E. now left.
  - exists (Some b). apply in_flat_map. exists a. split; [exact Ha |].
    rewrite E. now left.
Qed.

Lemma left_join_sound (on : A -> B -> bool) (l : list A) (r : list B)
    (a : A) (p : option B) :
  In (a, p) (Sql.left_join on l r) ->
  In a l /\ match p with
            | Some b => In b r /\ on a b = true
            | None => filter (on a) r = []
            end.
Proof.
  rewrite left_join_padded. intros H. apply in_flat_map in H.
  destruct H as (a' & Ha' & H).
  destruct (filter (on a') r) as [|b m] eqn:E; simpl in H.
  - destruct H as [H | []]. inversion H; subst. now split.
  - assert (Hin : In (a, p) (map (fun b0 => (a', Some b0)) (b :: m)))
      by exact H.
    apply in_map_iff in Hin. destruct Hin as (b0 & Hb0 & Hin).
    inversion Hb0; subst. split; [exact Ha' |].
    rewrite <- E in Hin. now apply filter_In in Hin.
Qed.

End JoinFacts.

(* ================================================================== *)
(** * The two profit metrics *)
(* ================================================================== *)


(* ================================================================== *)
(** * The summary of an empty store *)
(* ================================================================== *)

(** C2: on a store without customers and payments the summary row holds 0
    for the three counts and for [total_profit], and NULL, not 0, for
    [total_invested], [total_collected] and [total_pending]. *)
Theorem summary_of_no_data (now : date) :
  Summary.get no_data now
  = {| Summary.total_customers := 0;
       Summary.total_invested := None;
       Summary.total_collected := None;
       Summary.total_pending := None;
       Summary.overdue_customers := 0;
       Summary.completed_customers := 0;
       Summary.total_profit := 0 |}.
Proof. reflexivity. Qed.

(* ================================================================== *)
(** * Fully paid customers on the dashboard *)
(* ================================================================== *)

(** C3: [fullyPaidCustomers] is on every store the array of per-customer
    groups the grouped [count] resolves to, never a number; for a single
    customer without payments it is [[{ id: 1, count: 1 }]] while the
    summary's [completed_customers] is the number 1. *)
Theorem fullyPaidCustomers_is_grouped :
  (forall db today, exists gs,
      Dashboard.fullyPaidCustomers (Dashboard.get db today)
      = Dashboard.VGroups gs)
  /\ Dashboard.fullyPaidCustomers (Dashboard.get one_lease a_day)
     = Dashboard.VGroups [ Dashboard.mkGroup 1 1 ]
  /\ Summary.completed_customers (Summary.get one_lease a_day) = 1.
Proof.
  split; [| split].
  - intros db today. eexists. reflexivity.
  - reflexivity.
  - reflexivity.
Qed.

(* ================================================================== *)
(** * GROUP BY and ORDER BY *)
(* ================================================================== *)

Lemma filter_all {T : Type} (f : T -> bool) (l : list T) :
  (forall x, In x l -> f x = true) -> filter f l = l.
Proof.
  induction l as [|a l IH]; intros H; simpl; [reflexivity |].
  rewrite (H a (or_introl eq_refl)). f_equal. apply IH.
  intros x Hx. apply H. now right.
Qed.

Lemma filter_none {T : Type} (f : T -> bool) (l : list T) :
  (forall x, In x l -> f x = false) -> filter f l = [].
Proof.
  induction l as [|a l IH]; intros H; simpl; [reflexivity |].
  rewrite (H a (or_introl eq_refl)). apply IH.
  intros x Hx. apply H. now right.
Qed.

Lemma filter_either {T : Type} (p q : T -> bool) (l : list T) :
  (forall x, In x l -> p x = true -> q x = true -> False) ->
  Permutation (filter p l ++ filter q l) (filter (fun x => p x || q x) l).
Proof.
  induction l as [|a l IH]; intros H; simpl; [constructor |].
  assert (IH' : Permutation (filter p l ++ filter q l)
                            (filter (fun x => p x || q x) l)).
  { apply IH. intros x Hx. apply H. now right. }
  destruct (p a) eqn:Ep, (q a) eqn:Eq; simpl.
  - exfalso. apply (H a); auto. now left.
  - now constructor.
  - apply Permutation_sym, Permutation_cons_app, Permutation_sym, IH'.
  - exact IH'.
Qed.

Section GroupFacts.

Context {A K : Type}.
Variable eqb : K -> K -> bool.
Hypothesis eqb_spec : forall a b, eqb a b = true <-> a = b.
Variable key : A -> K.

Lemma eqb_same (k : K) : eqb k k = true.
Proof. now apply eqb_spec. Qed.

Lemma distinct_In (ks : list K) (k : K) :
  In k (Sql.distinct eqb ks) <-> In k ks.
Proof.
  induction ks as [|a ks IH]; simpl; [tauto |].
  rewrite filter_In, IH. split.
  - intros [H | [H _]]; auto.
  - intros [H | H]; [now left |].
    destruct (eqb k a) eqn:E.
    + left. symmetry. now apply eqb_spec.
    + right. split; [assumption | reflexivity].
Qed.

Lemma distinct_NoDup (ks : list K) : NoDup (Sql.distinct eqb ks).
Proof.
  induction ks as [|a ks IH]; simpl; constructor.
  - rewrite filter_In. intros [_ H]. now rewrite eqb_same in H.
  - now apply NoDup_filter.
Qed.

Lemma group_by_keys (rows : list A) :
  map fst (Sql.group_by eqb key rows) = Sql.distinct eqb (map key rows).
Proof.
  unfold Sql.group_by. rewrite map_map. simpl. apply map_id.
Qed.

Lemma group_by_In (rows : list A) (k : K) (g : list A) :
  In (k, g) (Sql.group_by eqb key rows) <->
  In k (map key rows) /\ g = filter (fun r => eqb (key r) k) rows.
Proof.
  unfold Sql.group_by. rewrite in_map_iff. split.
  - intros (k' & E & Hk'). inversion E; subst.
    split; [now apply distinct_In | reflexivity].
  - intros [Hk ->]. exists k. split; [reflexivity | now apply distinct_In].
Qed.

(** A group is never empty and holds rows of its key only. *)
Lemma group_rows (rows : list A) (k : K) (g : list A) :
  In (k, g) (Sql.group_by eqb key rows) ->
  g <> [] /\ forall r, In r g -> In r rows /\ key r = k.
Proof.
  intros H. apply group_by_In in H. destruct H as [Hk ->]. split.
  - apply in_map_iff in Hk. destruct Hk as (r & Hr & Hin).
    intros E. assert (Hr' : In r (filter (fun r => eqb (key r) k) rows)).
    { apply filter_In. split; [assumption |]. rewrite Hr. apply eqb_same. }
    now rewrite E in Hr'.
  - intros r Hr. apply filter_In in Hr. destruct Hr as [Hr E].
    split; [assumption | now apply eqb_spec].
Qed.

Lemma groups_of_keys (ks : list K) (rows : list A) :
  NoDup ks ->
  Permutation
    (List.concat (map (fun k => filter (fun r => eqb (key r) k) rows) ks))
    (filter (fun r => existsb (eqb (key r)) ks) rows).
Proof.
  induction 1 as [|k ks Hk Hnd IH]; simpl.
  - rewrite filter_none; [constructor | reflexivity].
  - etransitivity; [apply Permutation_app_head, IH |].
    apply (filter_either (fun r => eqb (key r) k)
                         (fun r => existsb (eqb (key r)) ks)).
    intros r _ E1 E2. apply eqb_spec in E1.
    apply existsb_exists in E2. destruct E2 as (k' & Hk' & E2).
    apply eqb_spec in E2. apply Hk. congruence.
Qed.

(** The groups hold every row exactly once. *)
Lemma group_by_partition (rows : list A) :
  Permutation (List.concat (map snd (Sql.group_by eqb key rows))) rows.
Proof.
  unfold Sql.group_by. rewrite map_map. simpl.
  etransitivity; [apply groups_of_keys, distinct_NoDup |].
  rewrite filter_all; [apply Permutation_refl |].
  intros r Hr. apply existsb_exists. exists (key r). split.
  - apply distinct_In. now apply in_map.
  - apply eqb_same.
Qed.

End GroupFacts.

Section OrderFacts.

Context {A : Type}.
Variable leb : A -> A -> bool.

Lemma insert_perm (x : A) (l : list A) :
  Permutation (Sql.insert leb x l) (x :: l).
Proof.
  induction l as [|y l IH]; simpl; [apply Permutation_refl |].
  destruct (leb x y); [apply Permutation_refl |].
  etransitivity; [apply perm_skip, IH | apply perm_swap].
Qed.

Lemma order_by_perm (l : list A) : Permutation (Sql.order_by leb l) l.
Proof.
  induction l as [|x l IH]; simpl; [constructor |].
  etransitivity; [apply insert_perm | now constructor].
Qed.

Lemma order_by_In (l : list A) (x : A) : In x (Sql.order_by leb l) <-> In x l.
Proof.
  split; apply Permutation_in;
    [apply order_by_perm | apply Permutation_sym, order_by_perm].
Qed.

Lemma order_by_length (l : list A) :
  List.length (Sql.order_by leb l) = List.length l.
Proof. apply Permutation_length, order_by_perm. Qed.

Hypothesis leb_total : forall a b, leb a b = true \/ leb b a = true.

Lemma insert_hd (x y : A) (l : list A) :
  HdRel (in_order leb) y l -> (in_order leb) y x -> HdRel (in_order leb) y (Sql.insert leb x l).
Proof.
  intros Hl Hx. destruct l as [|z l]; simpl.
  - now constructor.
  - destruct (leb x z); constructor; [assumption |].
    now inversion Hl.
Qed.

Lemma insert_sorted (x : A) (l : list A) :
  Sorted (in_order leb) l -> Sorted (in_order leb) (Sql.insert leb x l).
Proof.
  induction 1 as [|y l Hs IH Hhd]; simpl.
  - repeat constructor.
  - destruct (leb x y) eqn:E.
    + constructor; [now constructor | now constructor].
    + constructor; [exact IH |].
      apply insert_hd; [exact Hhd |].
      destruct (leb_total x y) as [H | H]; [congruence | exact H].
Qed.

Lemma order_by_sorted (l : list A) : Sorted (in_order leb) (Sql.order_by leb l).
Proof.
  induction l as [|x l IH]; simpl; [constructor | now apply insert_sorted].
Qed.

End OrderFacts.


(* ================================================================== *)
(** * Payment history of a customer *)
(* ================================================================== *)

Lemma null_first_total {A : Type} (leb : A -> A -> bool) :
  (forall a b, leb a b = true \/ leb b a = true) ->
  forall a b, Sql.null_first_leb leb a b = true
              \/ Sql.null_first_leb leb b a = true.
Proof.
  intros H [a|] [b|]; simpl; auto.
Qed.

Lemma date_leb_total (a b : date) : date_leb a b = true \/ date_leb b a = true.
Proof.
  unfold date_leb, date_compare.
  destruct (Z.compare_spec (year a) (year b));
    destruct (Z.compare_spec (year b) (year a)); try lia; auto;
  destruct (Z.compare_spec (month a) (month b));
    destruct (Z.compare_spec (month b) (month a)); try lia; auto;
  destruct (Z.compare_spec (day a) (day b));
    destruct (Z.compare_spec (day b) (day a)); try lia; auto.
Qed.

Lemma due_date_asc_total (a b : payment) :
  due_date_asc a b = true \/ due_date_asc b a = true.
Proof. apply null_first_total, date_leb_total. Qed.

(** Payments split into the paid ones, the pending ones and the rest. *)
Lemma amounts_by_status (ps : list payment) :
  History.reduce_amount (filter (status_is "paid") ps)
  + History.reduce_amount (filter (status_is "pending") ps)
  + History.reduce_amount
      (filter (fun p => negb (status_is "paid" p || status_is "pending" p)) ps)
  = History.reduce_amount ps.
Proof.
  unfold History.reduce_amount. rewrite !reduce_total.
  unfold total.
  induction ps as [|p ps IH]; [reflexivity |].
  cbn [filter map fold_right] in *.
  destruct (status_is "paid" p) eqn:E1, (status_is "pending" p) eqn:E2;
    cbn [filter map fold_right negb orb] in *; try lia.
  unfold status_is in E1, E2. apply String.eqb_eq in E1, E2. congruence.
Qed.

Lemma round_exact (z : Z) :
  Z.abs z <= 9007199254740992 -> Double.round z = z.
Proof.
  intros H. unfold Double.round, Double.exact_limit.
  apply Z.leb_le in H. now rewrite H.
Qed.

(** The rounding of [Double.add] and [Double.sub] against binary64
    arithmetic, on sums that fall on and next to a tie. *)
Lemma double_rounding_samples :
  (Double.add 9007199254740992 1 = 9007199254740992
   /\ PrimFloat.eqb (9007199254740992 + 1)%float 9007199254740992%float
      = true)
  /\ (Double.add 9007199254740992 3 = 9007199254740996
      /\ PrimFloat.eqb (9007199254740992 + 3)%float 9007199254740996%float
         = true)
  /\ (Double.add 18014398509481984 2 = 18014398509481984
      /\ PrimFloat.eqb (18014398509481984 + 2)%float 18014398509481984%float
         = true)
  /\ (Double.add 18014398509481984 5 = 18014398509481988
      /\ PrimFloat.eqb (18014398509481984 + 5)%float 18014398509481988%float
         = true)
  /\ (Double.add 18014398509481984 6 = 18014398509481992
      /\ PrimFloat.eqb (18014398509481984 + 6)%float 18014398509481992%float
         = true)
  /\ (Double.add (-9007199254740992) (-1) = -9007199254740992
      /\ PrimFloat.eqb (-9007199254740992 + -1)%float
                       (-9007199254740992)%float = true)
  /\ (Double.sub 9007199254740994 1 = 9007199254740992
      /\ PrimFloat.eqb (9007199254740994 - 1)%float 9007199254740992%float
         = true)
  /\ (Double.add 4503599627370496 4503599627370497 = 9007199254740992
      /\ PrimFloat.eqb (4503599627370496 + 4503599627370497)%float
                       9007199254740992%float = true).
Proof. vm_compute. repeat split. Qed.

Lemma total_nonneg {T : Type} (f : T -> Z) (l : list T) :
  (forall x, In x l -> 0 <= f x) -> 0 <= total (map f l).
Proof.
  induction l as [|a l IH]; intros H; [apply Z.le_refl |].
  cbn [map]. change (total (?x :: ?xs)) with (x + total xs).
  assert (0 <= f a) by (apply H; now left).
  assert (0 <= total (map f l)) by (apply IH; intros x Hx; apply H; now right).
  lia.
Qed.

Lemma total_filter_le {T : Type} (f : T -> Z) (h : T -> bool) (l : list T) :
  (forall x, In x l -> 0 <= f x) ->
  total (map f (filter h l)) <= total (map f l).
Proof.
  induction l as [|a l IH]; intros H; [apply Z.le_refl |].
  assert (0 <= f a) by (apply H; now left).
  assert (total (map f (filter h l)) <= total (map f l))
    by (apply IH; intros x Hx; apply H; now right).
  cbn [filter map]. destruct (h a); cbn [map];
    repeat change (total (?x :: ?xs)) with (x + total xs); lia.
Qed.

(** A left-to-right double sum of amounts that are not negative and add
    up to at most [2^53] is the exact sum. *)
Lemma double_sum_exact (ps : list payment) (acc : Z) :
  0 <= acc ->
  (forall p, In p ps -> 0 <= amount p) ->
  acc + total (map amount ps) <= Double.exact_limit ->
  fold_left (fun sum p => Double.add sum (amount p)) ps acc
  = acc + total (map amount ps).
Proof.
  unfold Double.exact_limit.
  revert acc. induction ps as [|p ps IH]; intros acc Hacc Hpos Hle.
  - cbn. lia.
  - cbn [fold_left map] in *.
    change (total (?x :: ?xs)) with (x + total xs) in *.
    assert (Hp : 0 <= amount p) by (apply Hpos; now left).
    assert (Hps : 0 <= total (map amount ps))
      by (apply total_nonneg; intros x Hx; apply Hpos; now right).
    change (Double.add acc (amount p)) with (Double.round (acc + amount p)).
    rewrite round_exact by lia.
    rewrite IH; [lia | lia | intros x Hx; apply Hpos; now right | lia].
Qed.

Lemma history_double_exact (ps : list payment) :
  (forall p, In p ps -> 0 <= amount p) ->
  total (map amount ps) <= Double.exact_limit ->
  HistoryDouble.reduce_amount ps = total (map amount ps).
Proof.
  intros Hpos Hle. unfold HistoryDouble.reduce_amount.
  rewrite double_sum_exact; [lia | lia | exact Hpos | exact Hle].
Qed.

Lemma exact_by_status (ps : list payment) :
  (forall p, In p ps -> status p = "paid"%string \/ status p = "pending"%string) ->
  total (map amount (filter (status_is "paid") ps))
  + total (map amount (filter (status_is "pending") ps))
  = total (map amount ps).
Proof.
  intros Hst. pose proof (amounts_by_status ps) as H.
  unfold History.reduce_amount in H. rewrite !reduce_total in H.
  rewrite (filter_none (fun p => negb (status_is "paid" p
                                       || status_is "pending" p))) in H.
  - change (total (map amount [])) with 0 in H. lia.
  - intros p Hp. unfold status_is.
    destruct (Hst p Hp) as [-> | ->]; reflexivity.
Qed.

(** C6, amended: when every payment of the customer is stored as ['paid'] or
    ['pending'] and the amounts are integers that are not negative and add
    up to at most [2^53], the history, with its three sums added as
    JavaScript adds them, has [paidAmount + remainingAmount = totalAmount];
    the payments listed are those of the customer, each once, in ascending
    due-date order. *)
Theorem history_paid_plus_remaining (db : store) (customerId : Z) :
  (forall p, In p (payments db) -> customer_id p = customerId ->
             status p = "paid"%string \/ status p = "pending"%string) ->
  (forall p, In p (payments db) -> customer_id p = customerId ->
             0 <= amount p) ->
  total (map amount (filter (fun p => customer_id p =? customerId)
                            (payments db))) <= Double.exact_limit ->
  let h := HistoryDouble.get db customerId in
  Double.add (History.paidAmount h) (History.remainingAmount h)
  = History.totalAmount h
  /\ Sorted (in_order due_date_asc) (History.payments_of h)
  /\ Permutation (History.payments_of h)
                 (filter (fun p => customer_id p =? customerId) (payments db)).
Proof.
  intros Hst Hpos Hle h. subst h. unfold Double.exact_limit in Hle.
  assert (Hlim : Double.exact_limit = 9007199254740992) by reflexivity.
  assert (Hin : forall p, In p (History.findAll db customerId) ->
                          In p (payments db) /\ customer_id p = customerId).
  { intros p Hp. apply order_by_In, filter_In in Hp.
    destruct Hp as [Hp E]. apply Z.eqb_eq in E. now split. }
  assert (Hall : total (map amount (History.findAll db customerId))
                 <= 9007199254740992).
  { unfold History.findAll.
    rewrite (total_perm _ _ (Permutation_map amount
                               (order_by_perm due_date_asc _))).
    exact Hle. }
  assert (Hp : forall p, In p (History.findAll db customerId) -> 0 <= amount p)
    by (intros p Hp; destruct (Hin p Hp); now apply Hpos).
  split; [| split].
  - cbn [HistoryDouble.get History.paidAmount History.remainingAmount
         History.totalAmount].
    pose proof (total_filter_le amount (status_is "paid") _ Hp) as Hpaid.
    pose proof (total_filter_le amount (status_is "pending") _ Hp) as Hpend.
    pose proof (total_nonneg amount
                  (filter (status_is "paid") (History.findAll db customerId)))
      as Hpaid0.
    pose proof (total_nonneg amount
                  (filter (status_is "pending")
                          (History.findAll db customerId))) as Hpend0.
    rewrite !history_double_exact;
      try (rewrite Hlim; lia);
      try (intros p Hq; apply filter_In in Hq; now apply Hp);
      try exact Hp.
    unfold Double.add.
    rewrite exact_by_status
      by (intros p Hq; destruct (Hin p Hq); now apply Hst).
    apply round_exact.
    pose proof (total_nonneg amount (History.findAll db customerId) Hp).
    lia.
  - apply order_by_sorted, due_date_asc_total.
  - apply order_by_perm.
Qed.

Lemma history_paid_plus_remaining_witness :
  let h := HistoryDouble.get two_leases 1 in
  Double.add (History.paidAmount h) (History.remainingAmount h)
  = History.totalAmount h.
Proof.
  apply (history_paid_plus_remaining two_leases 1).
  - simpl. intros p [<- | [<- | [<- | [<- | []]]]] _; simpl; auto.
  - simpl. intros p [<- | [<- | [<- | [<- | []]]]] _; simpl; lia.
  - vm_compute. discriminate.
Defined.

(** C6 as stated fails: with one payment of [2^53] paid and two payments of
    1 pending, the total is [2^53], each 1 being lost when it is added to
    the running sum, while the paid and the remaining amount add up to
    [2^53 + 2]; binary64 addition gives the same two numbers. *)
Lemma history_sums_round_apart :
  let h := HistoryDouble.get large_amounts 1 in
  History.totalAmount h = 9007199254740992
  /\ History.paidAmount h = 9007199254740992
  /\ History.remainingAmount h = 2
  /\ Double.add (History.paidAmount h) (History.remainingAmount h)
     = 9007199254740994
  /\ PrimFloat.eqb (((0 + 9007199254740992) + 1) + 1)%float
                   9007199254740992%float = true
  /\ PrimFloat.eqb ((0 + 9007199254740992) + ((0 + 1) + 1))%float
                   9007199254740994%float = true.
Proof. vm_compute. repeat split. Qed.

(** A payment stored as ['overdue'] is in the total and in neither of the
    two other sums. *)
Lemma history_overdue_unaccounted :
  let h := HistoryDouble.get overdue_only 1 in
  History.totalAmount h = 100
  /\ Double.add (History.paidAmount h) (History.remainingAmount h) = 0.
Proof. vm_compute. split; reflexivity. Qed.


(* ================================================================== *)
(** * The summary block of the PDF export *)
(* ================================================================== *)

Lemma count_status_order_by (s : string) (ps : list payment) :
  Pdf.count_status s (Sql.order_by due_date_asc ps)
  = Z.of_nat (List.length (filter (status_is s) ps)).
Proof.
  unfold Pdf.count_status. f_equal.
  apply Permutation_length, filter_perm, order_by_perm.
Qed.

(** C10: the summary block counts by the stored status text alone: its
    three counts are the numbers of payments stored as ['paid'], ['overdue']
    and ['pending']; one more payment stored as ['pending'] whose due date
    has passed raises the pending count by one and leaves the overdue count
    as it is, while the dashboard's overdue count, which is derived from
    ['pending'] and the due date, goes up by one. *)
Theorem pdf_counts_stored_status :
  (forall db,
      Pdf.paidPayments (Pdf.summary_block db)
      = Z.of_nat (List.length (filter (status_is "paid") (payments db)))
      /\ Pdf.overduePayments (Pdf.summary_block db)
         = Z.of_nat (List.length (filter (status_is "overdue") (payments db)))
      /\ Pdf.pendingPayments (Pdf.summary_block db)
         = Z.of_nat (List.length (filter (status_is "pending") (payments db))))
  /\ (forall db p today,
         status p = "pending"%string ->
         Sql.date_lt (due_date p) today = true ->
         let db' := {| customers := customers db;
                       payments := p :: payments db |} in
         Pdf.pendingPayments (Pdf.summary_block db')
         = Pdf.pendingPayments (Pdf.summary_block db) + 1
         /\ Pdf.overduePayments (Pdf.summary_block db')
            = Pdf.overduePayments (Pdf.summary_block db)
         /\ exists n,
             Dashboard.overduePayments (Dashboard.get db today)
             = Dashboard.VNum n
             /\ Dashboard.overduePayments (Dashboard.get db' today)
                = Dashboard.VNum (n + 1)).
Proof.
  split.
  - intros db. unfold Pdf.summary_block, Pdf.findAll.
    cbn [Pdf.paidPayments Pdf.overduePayments Pdf.pendingPayments].
    now rewrite !count_status_order_by.
  - intros db p today Hst Hdue db'.
    assert (Hpend : status_is "pending" p = true)
      by (unfold status_is; now rewrite Hst).
    assert (Hover : status_is "overdue" p = false)
      by (unfold status_is; now rewrite Hst).
    unfold Pdf.summary_block, Pdf.findAll.
    cbn [Pdf.overduePayments Pdf.pendingPayments].
    rewrite !count_status_order_by. subst db'.
    cbn [payments filter]. rewrite Hpend, Hover. cbn [List.length].
    split; [lia | split; [reflexivity |]].
    eexists. split; [reflexivity |].
    unfold Dashboard.get.
    cbn [Dashboard.overduePayments Dashboard.or_zero payments filter].
    rewrite Hpend, Hdue. cbn [andb List.length]. f_equal. lia.
Qed.

Lemma pdf_counts_stored_status_witness :
  Pdf.pendingPayments
    (Pdf.summary_block
       {| customers := customers one_lease;
          payments := sample_payment 7 1 500 (mkDate 2024 2 1) "pending"
                      :: payments one_lease |})
  = Pdf.pendingPayments (Pdf.summary_block one_lease) + 1
  /\ Pdf.overduePayments
       (Pdf.summary_block
          {| customers := customers one_lease;
             payments := sample_payment 7 1 500 (mkDate 2024 2 1) "pending"
                         :: payments one_lease |})
     = Pdf.overduePayments (Pdf.summary_block one_lease).
Proof.
  destruct (proj2 pdf_counts_stored_status one_lease
              (sample_payment 7 1 500 (mkDate 2024 2 1) "pending") a_day
              eq_refl eq_refl) as (H1 & H2 & _).
  split; [exact H1 | exact H2].
Defined.

(* ================================================================== *)
(** * The customer spreadsheet *)
(* ================================================================== *)

Section ExcelFacts.

Variable toLocaleDateString : option date -> string.

(** The cells [addRow] writes for a customer. *)
Lemma addRow_cells (c : customer) :
  map (fun col => Excel.lookup (Excel.key col)
                               (Excel.row_object toLocaleDateString c))
      Excel.the_columns
  = [ CNum (c_id c); CText (full_name c); CText (phone_number c);
      CText (Excel.carDetails c);
      Excel.number_cell (car_purchase_cost c);
      Excel.number_cell (leasing_amount c);
      Excel.number_cell (monthly_installment c);
      Excel.number_cell (lease_duration c);
      CText (toLocaleDateString (lease_start_date c));
      Excel.number_cell (total_paid c);
      match calculateProfit c with
      | Some f => f tt
      | None => CText ""
      end;
      CText (c_status c) ].
Proof. reflexivity. Qed.

Lemma addRow_fold (cs : list customer) (ws : Excel.worksheet) :
  let ws' := fold_left (fun ws c =>
                          Excel.addRow ws
                            (Excel.row_object toLocaleDateString c)) cs ws in
  Excel.columns ws' = Excel.columns ws
  /\ Excel.rows ws'
     = Excel.rows ws
       ++ map (fun c =>
                 {| Excel.cells :=
                      map (fun col =>
                             Excel.lookup (Excel.key col)
                               (Excel.row_object toLocaleDateString c))
                          (Excel.columns ws);
                    Excel.bold := false |}) cs.
Proof.
  revert ws. induction cs as [|c cs IH]; intros ws; simpl.
  - split; [reflexivity | now rewrite app_nil_r].
  - destruct (IH (Excel.addRow ws (Excel.row_object toLocaleDateString c)))
      as [Hc Hr].
    split; [exact Hc |]. rewrite Hr. simpl. now rewrite <- app_assoc.
Qed.

Lemma export_rows (db : store) :
  Excel.rows (Excel.export toLocaleDateString db)
  = {| Excel.cells := map (fun c => CText (Excel.header c)) Excel.the_columns;
       Excel.bold := true |}
    :: map (fun c =>
              {| Excel.cells :=
                   map (fun col =>
                          Excel.lookup (Excel.key col)
                            (Excel.row_object toLocaleDateString c))
                       Excel.the_columns;
                 Excel.bold := false |}) (Excel.findAll db).
Proof.
  unfold Excel.export.
  destruct (addRow_fold (Excel.findAll db)
              (Excel.set_columns (Excel.addWorksheet "Customers")
                                 Excel.the_columns)) as [_ Hr].
  unfold Excel.set_first_row_bold. cbn [Excel.rows]. rewrite Hr.
  reflexivity.
Qed.

(** C9: the sheet holds one bold header row of the 12 fixed columns followed
    by one row, not bold, per customer, in the order of the query; in the
    row of a customer the fourth cell is the text
    [<brand> <model> (<year>)] and the eleventh cell is the value of the
    customer's [calculateProfit] function when there is one and the empty
    text otherwise. *)
Theorem excel_export_layout (db : store) :
  let ws := Excel.export toLocaleDateString db in
  List.length (Excel.rows ws) = S (List.length (customers db))
  /\ Permutation (Excel.findAll db) (customers db)
  /\ nth_error (Excel.rows ws) 0
     = Some {| Excel.cells :=
                 map CText ["ID"; "Full Name"; "Phone Number"; "Car Details";
                            "Purchase Cost"; "Leasing Amount";
                            "Monthly Payment"; "Lease Duration"; "Start Date";
                            "Total Paid"; "Profit"; "Status"]%string;
               Excel.bold := true |}
  /\ forall i c,
       nth_error (Excel.findAll db) i = Some c ->
       exists r,
         nth_error (Excel.rows ws) (S i) = Some r
         /\ Excel.bold r = false
         /\ List.length (Excel.cells r) = 12%nat
         /\ nth_error (Excel.cells r) 3
            = Some (CText (Js.string_of_nullable (car_brand c) ++ " "
                           ++ car_model c ++ " ("
                           ++ Js.string_of_Z (car_year c) ++ ")")%string)
         /\ nth_error (Excel.cells r) 10
            = Some match calculateProfit c with
                   | Some f => f tt
                   | None => CText ""
                   end.
Proof.
  intros ws. subst ws. rewrite export_rows.
  split; [| split; [| split]].
  - cbn [List.length]. rewrite length_map.
    unfold Excel.findAll. now rewrite order_by_length.
  - apply order_by_perm.
  - reflexivity.
  - intros i c Hi. eexists. split.
    + cbn [nth_error]. rewrite nth_error_map, Hi. reflexivity.
    + cbn [Excel.bold Excel.cells]. rewrite addRow_cells.
      repeat split.
Qed.

End ExcelFacts.

Lemma excel_export_layout_witness :
  exists r,
    nth_error (Excel.rows (Excel.export (fun _ => "1/1/2024"%string) one_lease))
              1 = Some r
    /\ nth_error (Excel.cells r) 3 = Some (CText "Kia Rio (2019)")
    /\ nth_error (Excel.cells r) 10 = Some (CText "").
Proof.
  destruct (proj2 (proj2 (proj2
              (excel_export_layout (fun _ => "1/1/2024"%string) one_lease)))
              0%nat (sample_customer 1 "Ali" "0501" 10000 500 24) eq_refl)
    as (r & Hr & _ & _ & H3 & H10).
  exists r. split; [exact Hr | split; [exact H3 | exact H10]].
Defined.

(* ================================================================== *)
(** * Monthly buckets *)
(* ================================================================== *)

Lemma NoDup_map_injective {T U : Type} (f : T -> U) (l : list T) (a b : T) :
  NoDup (map f l) -> In a l -> In b l -> f a = f b -> a = b.
Proof.
  induction l as [|x l IH]; simpl; intros Hnd Ha Hb E; [contradiction |].
  inversion Hnd as [|? ? Hx Hnd']; subst.
  destruct Ha as [-> | Ha], Hb as [-> | Hb]; auto.
  - exfalso. apply Hx. rewrite E. now apply in_map.
  - exfalso. apply Hx. rewrite <- E. now apply in_map.
Qed.

Lemma ym_eqb_spec (a b : year_month) : ym_eqb a b = true <-> a = b.
Proof.
  destruct a as [y m], b as [y' m']. unfold ym_eqb. simpl.
  rewrite andb_true_iff, !Z.eqb_eq. split.
  - intros [-> ->]. reflexivity.
  - intros E. inversion E. auto.
Qed.

Lemma period_eqb_spec (a b : option year_month) :
  Monthly.period_eqb a b = true <-> a = b.
Proof.
  destruct a as [a|], b as [b|]; simpl; try (split; congruence).
  rewrite ym_eqb_spec. split; congruence.
Qed.





Lemma monthly_get_perm (db : store) (now : date) :
  Permutation (Monthly.get db now)
              (map (Monthly.aggregate now) (Monthly.groups db)).
Proof. apply order_by_perm. Qed.





(* ================================================================== *)
(** * LIKE and substrings *)
(* ================================================================== *)












(* ================================================================== *)
(** * Which customers the customer report lists *)
(* ================================================================== *)

Lemma In_somes {T : Type} (l : list (option T)) (x : T) :
  In x (Sql.somes l) <-> In (Some x) l.
Proof.
  induction l as [|[y|] l IH]; simpl.
  - tauto.
  - rewrite IH. split; intros [H | H]; auto; left; congruence.
  - rewrite IH. split; [auto | intros [H | H]; [discriminate | assumption]].
Qed.

Lemma existsb_none {T : Type} (f : T -> bool) (l : list T) :
  (forall x, In x l -> f x = false) -> existsb f l = false.
Proof.
  induction l as [|a l IH]; intros H; simpl; [reflexivity |].
  rewrite (H a (or_introl eq_refl)). apply IH. intros x Hx. apply H. now right.
Qed.

Lemma unique_id (cs : list customer) (c c' : customer) :
  NoDup (map c_id cs) -> In c cs -> In c' cs -> c_id c = c_id c' -> c = c'.
Proof. apply NoDup_map_injective. Qed.

Section ReportFacts.

Variable db : store.
Variable now : date.
Variable q : CustomerReport.query.

(** A row of the report is the row of a customer of the store who passes
    the WHERE clause. *)
Lemma report_sound (r : CustomerReport.t) :
  In r (CustomerReport.get db now q) ->
  In (CustomerReport.customer_of r) (customers db)
  /\ CustomerReport.where_clause (payments db) now q
       (CustomerReport.customer_of r) = true.
Proof.
  intros Hr. apply order_by_In, In_somes, in_map_iff in Hr.
  destruct Hr as ([k g] & Hagg & Hg).
  apply (group_rows _ Z.eqb_eq) in Hg. destruct Hg as [_ Hg].
  unfold CustomerReport.aggregate in Hagg. cbn [snd] in Hagg.
  destruct g as [|r0 g]; [discriminate |].
  inversion Hagg; subst r. cbn [CustomerReport.customer_of].
  destruct (Hg r0 (or_introl eq_refl)) as [Hin _].
  apply filter_In in Hin. destruct Hin as [Hin Hw].
  split; [| exact Hw].
  destruct r0 as [c p]. now apply left_join_sound in Hin.
Qed.

(** With unique customer ids, every customer who passes the WHERE clause
    has a row. *)
Lemma report_complete (c : customer) :
  NoDup (map c_id (customers db)) ->
  In c (customers db) ->
  CustomerReport.where_clause (payments db) now q c = true ->
  listed c (CustomerReport.get db now q).
Proof.
  intros Hnd Hc Hw.
  destruct (left_join_covers owns (customers db) (payments db) c Hc)
    as [p Hp].
  set (rows := filter (fun r => CustomerReport.where_clause (payments db) now q
                                  (fst r))
                      (Sql.left_join owns (customers db) (payments db))).
  assert (Hrow : In (c, p) rows) by (apply filter_In; now split).
  set (g := filter (fun r : customer * option payment =>
                      c_id (fst r) =? c_id c) rows).
  assert (Hg : In (c_id c, g) (CustomerReport.groups db now q)).
  { apply (group_by_In _ Z.eqb_eq). split; [| reflexivity].
    apply in_map_iff. now exists (c, p). }
  destruct (group_rows _ Z.eqb_eq _ _ _ _ Hg) as [Hne Hall].
  destruct g as [|r0 g'] eqn:Eg; [contradiction |].
  destruct (Hall r0 (or_introl eq_refl)) as [Hin Hid].
  apply filter_In in Hin. destruct Hin as [Hin _].
  destruct r0 as [c0 p0]. apply left_join_sound in Hin.
  destruct Hin as [Hc0 _]. cbn [fst] in Hid.
  assert (c0 = c) by (now apply (unique_id (customers db))). subst c0.
  destruct (CustomerReport.aggregate (c_id c, (c, p0) :: g')) as [r|] eqn:Er;
    [| discriminate].
  exists r. split.
  - apply order_by_In, In_somes. rewrite <- Er. now apply in_map.
  - unfold CustomerReport.aggregate in Er. cbn [snd] in Er.
    inversion Er. reflexivity.
Qed.

End ReportFacts.

Lemma where_completed (ps : list payment) (now : date) (c : customer) :
  CustomerReport.where_clause ps now (status_only "completed") c
  = negb (exists_pending ps c).
Proof.
  change (CustomerReport.where_clause ps now (status_only "completed") c)
    with (true && (negb (exists_pending ps c) && true)).
  now destruct (exists_pending ps c).
Qed.

Lemma where_overdue (ps : list payment) (now : date)
    (search brand : option string) (c : customer) :
  CustomerReport.where_clause ps now
    {| CustomerReport.q_status := Some "overdue"%string;
       CustomerReport.q_search := search;
       CustomerReport.q_car_brand := brand |} c = true ->
  exists_overdue ps now c = true.
Proof.
  unfold CustomerReport.where_clause, CustomerReport.conditions.
  cbn [CustomerReport.q_status CustomerReport.q_search
       CustomerReport.q_car_brand].
  change (Js.truthy (Some "overdue"%string)) with true.
  change ("overdue" =? "overdue")%string with true. cbv iota.
  intros H.
  assert (Hpre : forall l,
             forallb (fun cond : CustomerReport.condition => cond c)
                     (([fun _ : customer => true] ++ [exists_overdue ps now])
                        ++ l) = true ->
             exists_overdue ps now c = true).
  { intros l Hl. cbn [app forallb] in Hl.
    apply andb_true_iff in Hl. destruct Hl as [_ Hl].
    apply andb_true_iff in Hl. now destruct Hl. }
  destruct search as [s|], brand as [b|];
    try destruct (Js.truthy (Some s)); try destruct (Js.truthy (Some b));
    rewrite <- ?app_assoc in H;
    try (apply (Hpre _ H));
    apply (Hpre []); now rewrite app_nil_r.
Qed.


(* ================================================================== *)
(** * Completed and overdue customers *)
(* ================================================================== *)

(** C4: a customer without any payment is listed by the customer report
    with [status=completed] and is in no row of the report with
    [status=overdue], whatever the other filters. *)
Theorem no_payment_completed_not_overdue (db : store) (now : date)
    (c : customer) :
  NoDup (map c_id (customers db)) ->
  In c (customers db) ->
  (forall p, In p (payments db) -> customer_id p <> c_id c) ->
  listed c (CustomerReport.get db now (status_only "completed"))
  /\ forall search brand r,
       In r (CustomerReport.get db now
               {| CustomerReport.q_status := Some "overdue"%string;
                  CustomerReport.q_search := search;
                  CustomerReport.q_car_brand := brand |}) ->
       c_id (CustomerReport.customer_of r) <> c_id c.
Proof.
  intros Hnd Hc Hnone. split.
  - apply report_complete; [assumption | assumption |].
    rewrite where_completed. apply negb_true_iff, existsb_none.
    intros p Hp. apply andb_false_iff. left.
    apply Z.eqb_neq. now apply Hnone.
  - intros search brand r Hr Hid. apply report_sound in Hr.
    destruct Hr as [_ Hw]. apply where_overdue in Hw.
    apply existsb_exists in Hw. destruct Hw as (p & Hp & Hw).
    apply andb_true_iff in Hw. destruct Hw as [Hw _].
    apply andb_true_iff in Hw. destruct Hw as [Hw _].
    apply Z.eqb_eq in Hw. apply (Hnone p Hp). congruence.
Qed.

Lemma no_payment_completed_not_overdue_witness :
  listed (sample_customer 1 "Ali" "0501" 10000 500 24)
         (CustomerReport.get one_lease a_day (status_only "completed")).
Proof.
  apply (no_payment_completed_not_overdue one_lease a_day
           (sample_customer 1 "Ali" "0501" 10000 500 24)).
  - simpl. repeat constructor. intros [].
  - simpl. now left.
  - simpl. intros p [].
Defined.

(* ================================================================== *)
(** * The search filter *)
(* ================================================================== *)





(* ================================================================== *)
(** * The date range of the filtered report *)
(* ================================================================== *)

Section FilteredFacts.

Variable Row : Type.
Variable new_Date : string -> Filtered.js_date.
Variable findAll :
  Filtered.payment_where -> Filtered.customer_where -> option (list Row).




End FilteredFacts.




(* ================================================================== *)
(** * The grouped count and the completed customers *)
(* ================================================================== *)

Lemma left_join_complete {A B : Type} (on : A -> B -> bool)
    (l : list A) (r : list B) (a : A) (b : B) :
  In a l -> In b r -> on a b = true -> In (a, Some b) (Sql.left_join on l r).
Proof.
  intros Ha Hb Hon. rewrite left_join_padded. apply in_flat_map.
  exists a. split; [exact Ha |].
  assert (Hin : In b (filter (on a) r)) by (apply filter_In; now split).
  destruct (filter (on a) r) as [|b0 m]; [contradiction |].
  unfold padded. exact (in_map (fun b' => (a, Some b')) _ _ Hin).
Qed.

Lemma NoDup_map_filter {T U : Type} (f : T -> U) (p : T -> bool)
    (l : list T) :
  NoDup (map f l) -> NoDup (map f (filter p l)).
Proof.
  induction l as [|a l IH]; simpl; intros H; [constructor |].
  inversion H as [|? ? Ha Hl]; subst.
  destruct (p a); [| now apply IH].
  simpl. constructor; [| now apply IH].
  intros Hin. apply Ha. apply in_map_iff in Hin.
  destruct Hin as (x & E & Hx). apply filter_In in Hx.
  rewrite <- E. apply in_map. now destruct Hx.
Qed.

Lemma count_zero {T : Type} (vs : list (option T)) :
  (Sql.count vs =? 0) = true <-> forall v, In v vs -> v = None.
Proof.
  unfold Sql.count. rewrite Z.eqb_eq. split.
  - intros H v Hv. destruct v as [x|]; [| reflexivity].
    assert (Hin : In (Some x) (filter Sql.is_some vs))
      by (apply filter_In; now split).
    destruct (filter Sql.is_some vs); [contradiction | simpl in H; lia].
  - intros H. rewrite filter_none; [reflexivity |].
    intros v Hv. now rewrite (H v Hv).
Qed.

Section FullyPaid.

Variable db : store.

Lemma pending_of_same_id (c c' : customer) :
  c_id c = c_id c' ->
  exists_pending (payments db) c = exists_pending (payments db) c'.
Proof. intros E. unfold exists_pending, owns. now rewrite E. Qed.

Lemma fully_paid_groups (k : Z) :
  In k (map fst (filter Dashboard.having_no_pending
                   (Sql.group_by Z.eqb (fun r => c_id (fst r))
                      (Sql.left_join Dashboard.on_pending
                                     (customers db) (payments db)))))
  <-> settled db k.
Proof.
  split.
  - intros H. apply in_map_iff in H. destruct H as ([k' g] & E & H).
    cbn [fst] in E. subst k'. apply filter_In in H. destruct H as [Hg Hhav].
    pose proof (group_rows _ Z.eqb_eq _ _ _ _ Hg) as [Hne Hall].
    apply (group_by_In _ Z.eqb_eq) in Hg. destruct Hg as [_ Eg].
    destruct g as [|[c p0] g'] eqn:Egl; [contradiction |].
    destruct (Hall (c, p0) (or_introl eq_refl)) as [Hin Hk].
    cbn [fst] in Hk. apply left_join_sound in Hin. destruct Hin as [Hc _].
    exists c. split; [exact Hc | split; [exact Hk |]].
    destruct (exists_pending (payments db) c) eqn:Ep; [| reflexivity].
    exfalso. apply existsb_exists in Ep. destruct Ep as (p & Hp & Hon).
    assert (Hrow : In (c, Some p) ((c, p0) :: g')).
    { rewrite Eg. apply filter_In. split.
      - now apply left_join_complete.
      - cbn [fst]. now apply Z.eqb_eq. }
    unfold Dashboard.having_no_pending in Hhav. cbn [snd] in Hhav.
    rewrite count_zero in Hhav.
    specialize (Hhav _ (in_map _ _ _ Hrow)). cbn [snd] in Hhav.
    apply andb_true_iff in Hon. destruct Hon as [_ Hst].
    rewrite Hst in Hhav. discriminate.
  - intros (c & Hc & Hk & Hp).
    destruct (left_join_covers Dashboard.on_pending (customers db)
                (payments db) c Hc) as [p0 Hrow].
    apply in_map_iff.
    exists (k, filter (fun r : customer * option payment =>
                         c_id (fst r) =? k)
                      (Sql.left_join Dashboard.on_pending
                                     (customers db) (payments db))).
    split; [reflexivity |]. apply filter_In. split.
    + apply (group_by_In _ Z.eqb_eq). split; [| reflexivity].
      apply in_map_iff. now exists (c, p0).
    + unfold Dashboard.having_no_pending. cbn [snd]. apply count_zero.
      intros v Hv. apply in_map_iff in Hv. destruct Hv as ([c' p] & <- & Hr).
      apply filter_In in Hr. destruct Hr as [Hr Hid]. cbn [fst snd] in *.
      apply Z.eqb_eq in Hid. destruct p as [p|]; [| reflexivity].
      apply left_join_sound in Hr. destruct Hr as [_ [Hp' Hon]].
      exfalso.
      assert (Hex : exists_pending (payments db) c' = true).
      { apply existsb_exists. exists p. now split. }
      rewrite (pending_of_same_id c' c) in Hex by congruence. congruence.
Qed.

Lemma completed_ids (k : Z) :
  In k (nodup Z.eq_dec
          (Sql.somes
             (map (fun r : customer * option payment =>
                     id_if (fun c => negb (exists_pending (payments db) c))
                           (fst r))
                  (Summary.rows db))))
  <-> settled db k.
Proof.
  rewrite nodup_In, In_somes, in_map_iff. unfold id_if. split.
  - intros ([c p] & E & Hr). cbn [fst] in E.
    apply left_join_sound in Hr. destruct Hr as [Hc _].
    destruct (exists_pending (payments db) c) eqn:Ep; [discriminate |].
    inversion E. now exists c.
  - intros (c & Hc & Hk & Hp).
    destruct (left_join_covers owns (customers db) (payments db) c Hc)
      as [p Hrow].
    exists (c, p). split; [| exact Hrow]. cbn [fst]. now rewrite Hp, Hk.
Qed.

(** On every store the array [fullyPaidCustomers] holds one element per
    customer id without a pending payment, and its length is the summary's
    [completed_customers]. *)
Lemma fully_paid_length (now today : date) :
  exists gs,
    Dashboard.fullyPaidCustomers (Dashboard.get db today)
    = Dashboard.VGroups gs
    /\ Z.of_nat (List.length gs)
       = Summary.completed_customers (Summary.get db now).
Proof.
  eexists. split; [reflexivity |].
  cbn [Summary.get Summary.completed_customers]. unfold Sql.count_distinct.
  f_equal. rewrite <- (length_map Dashboard.g_id), map_map.
  cbn [Dashboard.g_id]. apply Permutation_length, NoDup_Permutation.
  - change (fun x : Z * list (customer * option payment) => fst x)
      with (@fst Z (list (customer * option payment))).
    apply NoDup_map_filter. rewrite group_by_keys.
    apply distinct_NoDup, Z.eqb_eq.
  - apply NoDup_nodup.
  - intros k.
    change (fun x : Z * list (customer * option payment) => fst x)
      with (@fst Z (list (customer * option payment))).
    rewrite fully_paid_groups. symmetry. apply completed_ids.
Qed.

End FullyPaid.

(* ================================================================== *)
(** * The bearer check *)
(* ================================================================== *)

Lemma startsWith_app (s p : string) :
  Auth.startsWith s p = true <-> exists t, s = (p ++ t)%string.
Proof.
  revert s. induction p as [|a p IH]; intros s; simpl.
  - split; [intros _; now exists s | now destruct s].
  - destruct s as [|b s]; simpl.
    + split; [discriminate | intros [t E]; discriminate].
    + rewrite andb_true_iff, Ascii.eqb_eq, IH. split.
      * intros [-> [t ->]]. now exists t.
      * intros [t E]. inversion E. split; [reflexivity | now exists t].
Qed.

Lemma split_not_nil (sep : ascii) (s : string) : Auth.split sep s <> [].
Proof.
  destruct s as [|c s]; simpl; [discriminate |].
  destruct (Ascii.eqb c sep); [discriminate |].
  destruct (Auth.split sep s); discriminate.
Qed.

(** The second piece of a header that starts with ["Bearer "] is the first
    piece of what follows. *)
Lemma split_bearer (t : string) :
  nth_error (Auth.split " " ("Bearer " ++ t)) 1
  = Some (hd EmptyString (Auth.split " " t)).
Proof.
  assert (H : Auth.split " " ("Bearer " ++ t)
              = "Bearer"%string :: Auth.split " " t).
  { cbn [append Auth.split Ascii.eqb Bool.eqb].
    pose proof (split_not_nil " " t) as Hne.
    destruct (Auth.split " " t) as [|piece pieces]; [contradiction |].
    reflexivity. }
  rewrite H. pose proof (split_not_nil " " t) as Hne.
  now destruct (Auth.split " " t).
Qed.

(** The middleware lets a request through exactly when its Authorization
    header is ["Bearer "] followed by a character other than a space: any
    such token passes, whatever it is, and nothing else does. *)
Theorem checkToken_accepts (authorization : option string) :
  Auth.checkToken authorization = Auth.Next
  <-> exists c rest,
        authorization = Some ("Bearer " ++ String c rest)%string
        /\ c <> " "%char.
Proof.
  split.
  - destruct authorization as [h|]; [| discriminate].
    unfold Auth.checkToken.
    destruct (Auth.startsWith h "Bearer ") eqn:Es.
    2:{ rewrite orb_true_r. discriminate. }
    apply startsWith_app in Es. destruct Es as [t ->].
    rewrite split_bearer.
    destruct (negb (Js.truthy (Some ("Bearer " ++ t)%string)) || negb true);
      [discriminate |].
    destruct t as [|c rest]; [discriminate |].
    cbn [Auth.split]. destruct (Ascii.eqb_spec c " ") as [-> | Hc];
      [discriminate |].
    intros _. now exists c, rest.
  - intros (c & rest & -> & Hc). unfold Auth.checkToken.
    rewrite split_bearer. cbn [Auth.split].
    apply Ascii.eqb_neq in Hc. rewrite Hc.
    destruct (Auth.split " " rest); reflexivity.
Qed.

(** A guarded route does not run its handler on a rejected request: without
    the header, or with one that does not start with ["Bearer "], it answers
    401 ['No token provided']; with ["Bearer "] followed by nothing or by a
    space it answers 401 ['Invalid token']. *)
Theorem guarded_rejections {A : Type} (handler : response A) :
  (forall authorization,
      (forall h, authorization = Some h ->
                 Auth.startsWith h "Bearer " = false) ->
      Auth.guarded authorization handler = Failure 401 "No token provided")
  /\ (forall t,
         t = EmptyString \/ (exists rest, t = String " " rest) ->
         Auth.guarded (Some ("Bearer " ++ t)%string) handler
         = Failure 401 "Invalid token").
Proof.
  split.
  - intros authorization H. unfold Auth.guarded, Auth.checkToken.
    destruct authorization as [h|]; [| reflexivity].
    rewrite (H h eq_refl), orb_true_r. reflexivity.
  - intros t Ht. unfold Auth.guarded, Auth.checkToken.
    rewrite split_bearer.
    destruct Ht as [-> | [rest ->]]; reflexivity.
Qed.

Lemma guarded_rejections_witness :
  Auth.guarded (Some "Basic dXNlcjpwYXNz"%string) (Json 0)
  = Failure 401 "No token provided"
  /\ Auth.guarded (Some "Bearer "%string) (Json 0)
     = Failure 401 "Invalid token".
Proof.
  split.
  - apply (proj1 (guarded_rejections (Json 0))).
    intros h E. inversion E. reflexivity.
  - apply (proj2 (guarded_rejections (Json 0)) EmptyString). now left.
Defined.

(* ================================================================== *)
(** * Sums over the joined rows *)
(* ================================================================== *)

Lemma total_or_zero (vs : list (option Z)) :
  Js.or_zero (Sql.sum vs) = total (map Js.or_zero vs).
Proof.
  rewrite sum_somes.
  assert (H : total (Sql.somes vs) = total (map Js.or_zero vs)).
  { induction vs as [|[x|] vs IH]; simpl; [reflexivity | now rewrite IH |].
    now rewrite <- IH. }
  rewrite <- H. now destruct (Sql.somes vs).
Qed.

Lemma total_flat_map {T U : Type} (f : U -> Z) (g : T -> list U)
    (l : list T) :
  total (map f (flat_map g l)) = total (map (fun a => total (map f (g a))) l).
Proof.
  induction l as [|a l IH]; simpl; [reflexivity |].
  now rewrite map_app, total_app, IH.
Qed.

Lemma total_plus {T : Type} (x y : T -> Z) (l : list T) :
  total (map (fun b => x b + y b) l) = total (map x l) + total (map y l).
Proof. induction l as [|b l IH]; simpl; [reflexivity | rewrite IH; ring]. Qed.

Lemma total_filter {T : Type} (f : T -> Z) (h : T -> bool) (l : list T) :
  total (map f (filter h l))
  = total (map (fun b => if h b then f b else 0) l).
Proof.
  induction l as [|b l IH]; simpl; [reflexivity |].
  destruct (h b); simpl; now rewrite IH.
Qed.

Lemma total_ext {T : Type} (f g : T -> Z) (l : list T) :
  (forall b, In b l -> f b = g b) -> total (map f l) = total (map g l).
Proof.
  induction l as [|b l IH]; intros H; simpl; [reflexivity |].
  rewrite (H b (or_introl eq_refl)), IH; [reflexivity |].
  intros x Hx. apply H. now right.
Qed.

Lemma total_length {T : Type} (l : list T) :
  total (map (fun _ => 1) l) = Z.of_nat (List.length l).
Proof.
  induction l as [|b l IH]; [reflexivity |].
  cbn [map List.length]. rewrite Nat2Z.inj_succ. unfold total in *.
  cbn [fold_right]. lia.
Qed.

(** Summing per left-hand row over its partners is summing per right-hand
    row, weighted by the number of its partners. *)
Lemma total_swap {T U : Type} (f : U -> Z) (g : T -> U -> bool)
    (l : list T) (r : list U) :
  total (map (fun a => total (map f (filter (g a) r))) l)
  = total (map (fun b => f b * Z.of_nat (List.length
                                           (filter (fun a => g a b) l))) r).
Proof.
  induction l as [|a l IH]; cbn [map filter List.length].
  - change (total []) with 0. symmetry.
    rewrite (total_ext _ (fun _ => 0)); [| intros; ring].
    induction r as [|b r IHr]; [reflexivity | exact IHr].
  - change (total (?x :: ?xs)) with (x + total xs). rewrite IH, total_filter.
    rewrite <- total_plus. apply total_ext. intros b _.
    destruct (g a b); cbn [List.length]; lia.
Qed.

(** With unique ids, a payment is owned by one customer when its customer
    exists and by none otherwise. *)
Lemma owners_count (cs : list customer) (p : payment) :
  NoDup (map c_id cs) ->
  Z.of_nat (List.length (filter (fun c => owns c p) cs))
  = if existsb (fun c => owns c p) cs then 1 else 0.
Proof.
  induction cs as [|c cs IH]; intros Hnd; [reflexivity |].
  inversion Hnd as [|? ? Hc Hnd']; subst.
  cbn [filter existsb]. destruct (owns c p) eqn:E.
  - cbn [orb List.length]. rewrite filter_none; [reflexivity |].
    intros c' Hc'. destruct (owns c' p) eqn:E'; [| reflexivity].
    exfalso. apply Hc. unfold owns in E, E'.
    apply Z.eqb_eq in E, E'. rewrite <- E, E'. now apply in_map.
  - cbn [orb]. now apply IH.
Qed.


(** The sum of a CASE on the payment side over the rows of one customer. *)
Lemma padded_amounts (s : string) (c : customer) (m : list payment) :
  total (map (fun r : customer * option payment =>
                Js.or_zero (amount_if_status s (snd r))) (padded c m))
  = total (map (fun p => if status_is s p then amount p else 0) m).
Proof.
  destruct m as [|p m]; [reflexivity |].
  unfold padded. rewrite map_map. apply total_ext. intros q _.
  cbn [snd amount_if_status]. now destruct (status_is s q).
Qed.

Lemma summary_case_sum (db : store) (s : string) :
  Js.or_zero (Sql.sum (map (fun r => amount_if_status s (snd r))
                           (Summary.rows db)))
  = total (map (fun p => (if status_is s p then amount p else 0)
                         * Z.of_nat (List.length
                                       (filter (fun c => owns c p)
                                               (customers db))))
               (payments db)).
Proof.
  rewrite total_or_zero, map_map.
  unfold Summary.rows. rewrite left_join_padded.
  rewrite (total_flat_map
             (fun r : customer * option payment =>
                Js.or_zero (amount_if_status s (snd r)))).
  rewrite <- (total_swap (fun p => if status_is s p then amount p else 0) owns).
  apply total_ext. intros c _. apply padded_amounts.
Qed.


Lemma dashboard_of_sum (v : option Z) :
  Dashboard.or_zero (Dashboard.of_sum v) = Dashboard.VNum (Js.or_zero v).
Proof. now destruct v. Qed.

(** With unique customer ids, the dashboard's [activeLeases] is the number
    of pending payments whose customer exists: it counts payments, so a
    customer with several pending payments counts several times. *)
Theorem activeLeases_counts_payments (db : store) (today : date) :
  NoDup (map c_id (customers db)) ->
  Dashboard.activeLeases (Dashboard.get db today)
  = Dashboard.VNum
      (Z.of_nat (List.length
         (filter (fun p => status_is "pending" p
                           && existsb (fun c => owns c p) (customers db))
                 (payments db)))).
Proof.
  intros Hnd. cbn [Dashboard.get Dashboard.activeLeases].
  unfold Dashboard.count_active, Sql.inner_join. cbn [Dashboard.or_zero].
  f_equal. rewrite <- !total_length.
  rewrite (total_flat_map (fun _ : customer * payment => 1)).
  rewrite (total_ext _ (fun c => total (map (fun _ : payment => 1)
                                   (filter (Dashboard.on_pending c)
                                           (payments db)))))
    by (intros c _; now rewrite map_map).
  rewrite (total_swap (fun _ : payment => 1) Dashboard.on_pending).
  rewrite total_filter. apply total_ext. intros p _.
  unfold Dashboard.on_pending. destruct (status_is "pending" p).
  - rewrite (filter_ext _ (fun c => owns c p))
      by (intros c; apply andb_true_r).
    rewrite (owners_count _ p Hnd). cbn [andb].
    destruct (existsb (fun c => owns c p) (customers db)); reflexivity.
  - rewrite filter_none by (intros c _; apply andb_false_r). reflexivity.
Qed.

Lemma activeLeases_counts_payments_witness :
  Dashboard.activeLeases (Dashboard.get two_leases a_day) = Dashboard.VNum 1.
Proof.
  apply (activeLeases_counts_payments two_leases a_day).
  simpl. repeat constructor; simpl; intuition discriminate.
Defined.

(** Every dashboard statistic other than [fullyPaidCustomers] is a number
    on every store, never [null]; on the empty store each of them is 0. *)
Theorem dashboard_numbers (db : store) (today : date) :
  Forall (fun v => exists n, v = Dashboard.VNum n)
         (let d := Dashboard.get db today in
          [Dashboard.totalCustomers d; Dashboard.activeLeases d;
           Dashboard.monthlyPayments d; Dashboard.totalInvested d;
           Dashboard.totalCollected d; Dashboard.totalUnpaid d;
           Dashboard.overduePayments d; Dashboard.totalProfit d])
  /\ Forall (fun v => v = Dashboard.VNum 0)
            (let d := Dashboard.get no_data today in
             [Dashboard.totalCustomers d; Dashboard.activeLeases d;
              Dashboard.monthlyPayments d; Dashboard.totalInvested d;
              Dashboard.totalCollected d; Dashboard.totalUnpaid d;
              Dashboard.overduePayments d; Dashboard.totalProfit d]).
Proof.
  split.
  - cbn [Dashboard.get Dashboard.totalCustomers Dashboard.activeLeases
         Dashboard.monthlyPayments Dashboard.totalInvested
         Dashboard.totalCollected Dashboard.totalUnpaid
         Dashboard.overduePayments Dashboard.totalProfit].
    rewrite !dashboard_of_sum.
    repeat constructor; eexists; reflexivity.
  - repeat constructor.
Qed.

(* ================================================================== *)
(** * The customer counts of the summary *)
(* ================================================================== *)

Lemma overdue_is_pending (ps : list payment) (now : date) (c : customer) :
  exists_overdue ps now c = true -> exists_pending ps c = true.
Proof.
  unfold exists_overdue, exists_pending. rewrite !existsb_exists.
  intros (p & Hp & H). exists p. split; [exact Hp |].
  now apply andb_true_iff in H.
Qed.

Lemma summary_ids (db : store) (cond : customer -> bool) (k : Z) :
  In k (nodup Z.eq_dec
          (Sql.somes (map (fun r : customer * option payment =>
                             id_if cond (fst r)) (Summary.rows db))))
  <-> exists c, In c (customers db) /\ c_id c = k /\ cond c = true.
Proof.
  rewrite nodup_In, In_somes, in_map_iff. unfold id_if. split.
  - intros ([c p] & E & Hr). cbn [fst] in E.
    apply left_join_sound in Hr. destruct Hr as [Hc _].
    destruct (cond c) eqn:Ec; [| discriminate].
    inversion E. now exists c.
  - intros (c & Hc & Hk & Hcond).
    destruct (left_join_covers owns (customers db) (payments db) c Hc)
      as [p Hrow].
    exists (c, p). split; [| exact Hrow]. cbn [fst]. now rewrite Hcond, Hk.
Qed.

(** No customer is counted both as overdue and as completed: the two
    counts of the summary add up to at most [total_customers], which is the
    number of customers when their ids are unique. *)
Theorem summary_counts (db : store) (now : date) :
  let s := Summary.get db now in
  0 <= Summary.overdue_customers s
  /\ 0 <= Summary.completed_customers s
  /\ Summary.overdue_customers s + Summary.completed_customers s
     <= Summary.total_customers s
  /\ (NoDup (map c_id (customers db)) ->
      Summary.total_customers s = Z.of_nat (List.length (customers db))).
Proof.
  cbn [Summary.get Summary.overdue_customers Summary.completed_customers
       Summary.total_customers]. unfold Sql.count_distinct.
  split; [lia | split; [lia | split]].
  - rewrite <- Nat2Z.inj_add, <- length_app. apply inj_le.
    apply NoDup_incl_length.
    + apply NoDup_app; try apply NoDup_nodup.
      intros k Ha Hb. apply summary_ids in Ha, Hb.
      destruct Ha as (c & _ & Hk & Ho), Hb as (c' & _ & Hk' & Hc').
      apply overdue_is_pending in Ho.
      rewrite (pending_of_same_id db c c') in Ho by congruence.
      rewrite Ho in Hc'. discriminate.
    + intros k Hk. apply in_app_or in Hk.
      apply (summary_ids db (fun _ => true) k).
      destruct Hk as [Hk | Hk]; apply summary_ids in Hk;
        destruct Hk as (c & Hc & Hk & _); now exists c.
  - intros Hnd. f_equal. rewrite <- (length_map c_id (customers db)).
    apply Permutation_length, NoDup_Permutation;
      [apply NoDup_nodup | exact Hnd |].
    intros k. rewrite (summary_ids db (fun _ => true) k), in_map_iff.
    split.
    + intros (c & Hc & Hk & _). now exists c.
    + intros (c & Hk & Hc). now exists c.
Qed.

Lemma summary_counts_witness :
  Summary.total_customers (Summary.get two_leases a_day) = 2.
Proof.
  apply (proj2 (proj2 (proj2 (summary_counts two_leases a_day)))).
  simpl. repeat constructor; simpl; intuition discriminate.
Defined.


(* ================================================================== *)
(** * The rows of the customer report *)
(* ================================================================== *)

Lemma where_split (ps : list payment) (now : date)
    (q : CustomerReport.query) (c : customer) :
  CustomerReport.where_clause ps now q c
  = status_ok ps now q c && search_ok q c && brand_ok q c.
Proof.
  unfold CustomerReport.where_clause, CustomerReport.conditions,
    status_ok, search_ok, brand_ok, Js.truthy.
  destruct q as [st s b].
  cbn [CustomerReport.q_status CustomerReport.q_search
       CustomerReport.q_car_brand].
  destruct st as [st|];
    [destruct (String.eqb_spec st "overdue") as [-> | _];
     [| destruct (String.eqb_spec st "completed") as [-> | _];
        [| destruct (st =? "")%string]] |];
    destruct s as [s|], b as [b|];
    try destruct (s =? "")%string; try destruct (b =? "")%string;
    cbn [negb app forallb andb String.eqb Ascii.eqb Bool.eqb];
    rewrite ?andb_true_r, ?andb_assoc; reflexivity.
Qed.

Lemma created_desc_total (a b : CustomerReport.t) :
  CustomerReport.created_desc a b = true
  \/ CustomerReport.created_desc b a = true.
Proof.
  unfold CustomerReport.created_desc.
  destruct (null_first_total date_leb date_leb_total
              (creation_date (CustomerReport.customer_of a))
              (creation_date (CustomerReport.customer_of b))); auto.
Qed.

Lemma aggregate_keys (gs : list (Z * list (customer * option payment))) :
  (forall k g, In (k, g) gs ->
               g <> [] /\ forall r, In r g -> c_id (fst r) = k) ->
  map (fun r => c_id (CustomerReport.customer_of r))
      (Sql.somes (map CustomerReport.aggregate gs))
  = map fst gs.
Proof.
  induction gs as [|[k g] gs IH]; intros H; [reflexivity |].
  destruct (H k g (or_introl eq_refl)) as [Hne Hk].
  destruct g as [|r0 g]; [contradiction |].
  cbn [map CustomerReport.aggregate snd Sql.somes
       CustomerReport.customer_of fst].
  rewrite (Hk r0 (or_introl eq_refl)). f_equal.
  apply IH. intros k' g' Hg'. apply H. now right.
Qed.

Lemma report_ids (db : store) (now : date) (q : CustomerReport.query) :
  NoDup (map (fun r => c_id (CustomerReport.customer_of r))
             (CustomerReport.get db now q)).
Proof.
  apply (Permutation_NoDup
           (l := map (fun r => c_id (CustomerReport.customer_of r))
                     (Sql.somes (map CustomerReport.aggregate
                                     (CustomerReport.groups db now q))))).
  - apply Permutation_sym, Permutation_map, order_by_perm.
  - rewrite aggregate_keys.
    + unfold CustomerReport.groups. rewrite group_by_keys.
      apply distinct_NoDup, Z.eqb_eq.
    + intros k g Hg.
      destruct (group_rows _ Z.eqb_eq _ _ _ _ Hg) as [Hne Hall].
      split; [exact Hne |]. intros r Hr. now apply Hall.
Qed.

(** With unique customer ids, the customer report lists the customers that
    pass the status filter and the search filter and the brand filter, each
    of them once, in descending order of creation date. *)
Theorem report_lists_filtered (db : store) (now : date)
    (q : CustomerReport.query) :
  NoDup (map c_id (customers db)) ->
  Permutation
    (map CustomerReport.customer_of (CustomerReport.get db now q))
    (filter (fun c => status_ok (payments db) now q c
                      && search_ok q c && brand_ok q c)
            (customers db))
  /\ Sorted (fun a b =>
               Sql.null_first_leb date_leb
                 (creation_date (CustomerReport.customer_of b))
                 (creation_date (CustomerReport.customer_of a)) = true)
            (CustomerReport.get db now q).
Proof.
  intros Hnd. split.
  - apply NoDup_Permutation.
    + apply (NoDup_map_inv c_id). rewrite map_map. apply report_ids.
    + apply NoDup_filter. now apply (NoDup_map_inv c_id).
    + intros c. rewrite filter_In, <- where_split, in_map_iff. split.
      * intros (r & <- & Hr). now apply report_sound.
      * intros [Hc Hw].
        destruct (report_complete db now q c Hnd Hc Hw) as (r & Hr & E).
        now exists r.
  - apply (order_by_sorted CustomerReport.created_desc created_desc_total).
Qed.

Lemma report_lists_filtered_witness :
  Permutation
    (map CustomerReport.customer_of
         (CustomerReport.get two_leases a_day
            {| CustomerReport.q_status := Some "completed"%string;
               CustomerReport.q_search := None;
               CustomerReport.q_car_brand := Some "Kia"%string |}))
    [sample_customer 2 "Leyla" "0702" 6000 300 24].
Proof.
  apply (proj1 (report_lists_filtered two_leases a_day
                  {| CustomerReport.q_status := Some "completed"%string;
                     CustomerReport.q_search := None;
                     CustomerReport.q_car_brand := Some "Kia"%string |}
                  ltac:(simpl; repeat constructor; simpl;
                        intuition discriminate))).
Defined.

Lemma filter_over_flat_map {T U : Type} (f : U -> bool) (g : T -> list U)
    (l : list T) :
  filter f (flat_map g l) = flat_map (fun a => filter f (g a)) l.
Proof.
  induction l as [|a l IH]; simpl; [reflexivity |].
  now rewrite filter_app, IH.
Qed.

Lemma padded_fst {A B : Type} (a : A) (m : list B) (r : A * option B) :
  In r (padded a m) -> fst r = a.
Proof.
  destruct m as [|b m]; simpl.
  - intros [<- | []]. reflexivity.
  - intros [<- | H]; [reflexivity |].
    apply in_map_iff in H. destruct H as (x & <- & _). reflexivity.
Qed.

Lemma filter_padded {A B : Type} (sel : A -> bool) (a : A) (m : list B) :
  filter (fun r : A * option B => sel (fst r)) (padded a m)
  = if sel a then padded a m else [].
Proof.
  destruct (sel a) eqn:E.
  - apply filter_all. intros r Hr. now rewrite (padded_fst a m r Hr).
  - apply filter_none. intros r Hr. now rewrite (padded_fst a m r Hr).
Qed.

Lemma flat_map_nil {T U : Type} (g : T -> list U) (l : list T) :
  (forall a, In a l -> g a = []) -> flat_map g l = [].
Proof.
  induction l as [|a l IH]; intros H; [reflexivity |].
  cbn [flat_map]. rewrite (H a (or_introl eq_refl)). apply IH.
  intros b Hb. apply H. now right.
Qed.

Lemma flat_map_only {T U : Type} (sel : T -> bool) (h : T -> list U)
    (l : list T) (c : T) :
  In c l -> NoDup l ->
  (forall a, In a l -> sel a = true -> a = c) -> sel c = true ->
  flat_map (fun a => if sel a then h a else []) l = h c.
Proof.
  induction l as [|a l IH]; intros Hc Hnd Hsel Hyes; [contradiction |].
  inversion Hnd as [|? ? Ha Hnd']; subst. cbn [flat_map].
  destruct Hc as [-> | Hc].
  - rewrite Hyes.
    assert (Hnil : flat_map (fun a => if sel a then h a else []) l = []).
    { apply flat_map_nil. intros b Hb.
      destruct (sel b) eqn:Eb; [| reflexivity].
      exfalso. apply Ha. rewrite <- (Hsel b (or_intror Hb) Eb). exact Hb. }
    rewrite Hnil. apply app_nil_r.
  - destruct (sel a) eqn:Ea.
    + exfalso. apply Ha. rewrite (Hsel a (or_introl eq_refl) Ea). exact Hc.
    + apply IH; auto. intros x Hx. apply Hsel. now right.
Qed.


Lemma count_case {T U : Type} (cond : T -> bool) (f : T -> U) (l : list T) :
  Sql.count (map (fun p => if cond p then Some (f p) else None) l)
  = Z.of_nat (List.length (filter cond l)).
Proof.
  unfold Sql.count. f_equal.
  induction l as [|p l IH]; [reflexivity |].
  cbn [map filter]. destruct (cond p); cbn [Sql.is_some List.length];
    now rewrite IH.
Qed.











(* ================================================================== *)
(** * Monthly figures against the whole store *)
(* ================================================================== *)

Lemma total_concat {T K : Type} (f : T -> Z) (gs : list (K * list T)) :
  total (map (fun g => total (map f (snd g))) gs)
  = total (map f (List.concat (map snd gs))).
Proof.
  induction gs as [|g gs IH]; [reflexivity |].
  cbn [map List.concat]. rewrite map_app, total_app, <- IH. reflexivity.
Qed.

Lemma total_indicator {T : Type} (cond : T -> bool) (l : list T) :
  total (map (fun p => if cond p then 1 else 0) l)
  = Z.of_nat (List.length (filter cond l)).
Proof. now rewrite <- total_length, total_filter. Qed.

(** A per-bucket figure that adds [f p] for each payment of the bucket adds
    up, over the buckets, to the sum of [f] over all payments. *)
Lemma monthly_total (db : store) (now : date) (field : Monthly.t -> Z)
    (f : payment -> Z) :
  (forall g, field (Monthly.aggregate now g) = total (map f (snd g))) ->
  total (map field (Monthly.get db now)) = total (map f (payments db)).
Proof.
  intros H.
  rewrite (total_perm _ _ (Permutation_map field (monthly_get_perm db now))).
  rewrite map_map.
  rewrite (total_ext _ (fun g => total (map f (snd g)))) by (intros; apply H).
  rewrite total_concat. apply total_perm, Permutation_map.
  apply group_by_partition, period_eqb_spec.
Qed.

(** Whatever the due dates, NULL included, the counts of the monthly
    buckets add up to the counts of the whole store: the payment counts to
    the number of payments, the completed counts to the number of paid
    payments, the overdue counts to the number of pending payments due on
    or before now. *)
Theorem monthly_counts_add_up (db : store) (now : date) :
  let report := Monthly.get db now in
  total (map Monthly.total_payments report)
  = Z.of_nat (List.length (payments db))
  /\ total (map Monthly.completed_payments report)
     = Z.of_nat (List.length (filter (status_is "paid") (payments db)))
  /\ total (map Monthly.overdue_payments report)
     = Z.of_nat (List.length (filter (Monthly.is_overdue now) (payments db))).
Proof.
  intros report. subst report. split; [| split].
  - rewrite <- total_length. apply monthly_total. intros g.
    cbn [Monthly.aggregate Monthly.total_payments]. now rewrite total_length.
  - rewrite <- total_indicator. apply monthly_total. intros g.
    cbn [Monthly.aggregate Monthly.completed_payments].
    now rewrite (count_case (status_is "paid") (fun _ => 1)), total_indicator.
  - rewrite <- total_indicator. apply monthly_total. intros g.
    cbn [Monthly.aggregate Monthly.overdue_payments].
    now rewrite (count_case (Monthly.is_overdue now) (fun _ => 1)),
      total_indicator.
Qed.

(* ================================================================== *)
(** * The amounts of the PDF summary *)
(* ================================================================== *)

Lemma pdf_double_exact (ps : list payment) :
  (forall p, In p ps -> 0 <= amount p) ->
  total (map amount ps) <= Double.exact_limit ->
  PdfDouble.reduce_amount ps = total (map amount ps).
Proof.
  intros Hpos Hle. unfold PdfDouble.reduce_amount.
  rewrite double_sum_exact; [lia | lia | exact Hpos | exact Hle].
Qed.

(** The PDF summary counts every payment, and when every payment is stored
    as ['paid'], ['overdue'] or ['pending'] its three counts add up to the
    total count.  When the amounts are integers that are not negative and
    add up to at most [2^53], the amounts of the summary, added as
    JavaScript adds them, are exact: the total is the sum of all amounts,
    and the remaining amount, the total less the paid amount, is the sum of
    the amounts of all the payments that are not stored as ['paid'], those
    stored as ['overdue'] included. *)
Theorem pdf_summary_amounts (db : store) :
  Pdf.totalPayments (Pdf.summary_block db)
  = Z.of_nat (List.length (payments db))
  /\ ((forall p, In p (payments db) ->
                 status p = "paid"%string \/ status p = "overdue"%string
                 \/ status p = "pending"%string) ->
      let s := Pdf.summary_block db in
      Pdf.paidPayments s + Pdf.overduePayments s + Pdf.pendingPayments s
      = Pdf.totalPayments s)
  /\ ((forall p, In p (payments db) -> 0 <= amount p) ->
      total (map amount (payments db)) <= Double.exact_limit ->
      let a := PdfDouble.summary_amounts db in
      PdfDouble.totalAmount a = total (map amount (payments db))
      /\ PdfDouble.paidAmount a
         = total (map amount (filter (status_is "paid") (payments db)))
      /\ PdfDouble.remainingAmount a
         = total (map amount
                      (filter (fun p => negb (status_is "paid" p))
                              (payments db)))).
Proof.
  split; [| split].
  - unfold Pdf.summary_block, Pdf.findAll. cbn [Pdf.totalPayments].
    now rewrite order_by_length.
  - intros Hst s. subst s. unfold Pdf.summary_block, Pdf.findAll.
    cbn [Pdf.totalPayments Pdf.paidPayments Pdf.overduePayments
         Pdf.pendingPayments].
    rewrite order_by_length, !count_status_order_by.
    rewrite <- !total_indicator, <- !total_plus, <- total_length.
    apply total_ext. intros p Hp. unfold status_is.
    destruct (Hst p Hp) as [-> | [-> | ->]]; reflexivity.
  - intros Hpos Hle a. subst a. unfold PdfDouble.summary_amounts, Pdf.findAll.
    cbn [PdfDouble.totalAmount PdfDouble.paidAmount
         PdfDouble.remainingAmount].
    set (l := Sql.order_by due_date_asc (payments db)).
    assert (Hl : forall p, In p l -> 0 <= amount p)
      by (intros p Hp; apply Hpos; now apply order_by_In in Hp).
    assert (Htot : total (map amount l) = total (map amount (payments db)))
      by (apply total_perm, Permutation_map, order_by_perm).
    assert (Hpaid : total (map amount (filter (status_is "paid") l))
                    = total (map amount
                                 (filter (status_is "paid") (payments db))))
      by (apply total_perm, Permutation_map, filter_perm, order_by_perm).
    pose proof (total_filter_le amount (status_is "paid") l Hl) as Hle1.
    pose proof (total_nonneg amount (filter (status_is "paid") l)) as H0.
    assert (Hlim : Double.exact_limit = 9007199254740992) by reflexivity.
    rewrite !pdf_double_exact;
      try (rewrite Hlim in *; lia);
      try (intros p Hq; apply filter_In in Hq; now apply Hl);
      try exact Hl.
    rewrite Htot, Hpaid. split; [reflexivity | split; [reflexivity |]].
    unfold Double.sub. rewrite round_exact.
    + rewrite !total_filter.
      assert (H : forall x y z : Z, x = y + z -> x - y = z) by (intros; lia).
      apply H. rewrite <- total_plus. apply total_ext. intros p _.
      destruct (status_is "paid" p); cbn [negb]; lia.
    + rewrite <- Hpaid, <- Htot. rewrite Hlim in *.
      assert (0 <= total (map amount (filter (status_is "paid") l)))
        by (apply H0; intros p Hq; apply filter_In in Hq; now apply Hl).
      lia.
Qed.

Lemma pdf_summary_amounts_witness :
  Pdf.paidPayments (Pdf.summary_block overdue_only)
  + Pdf.overduePayments (Pdf.summary_block overdue_only)
  + Pdf.pendingPayments (Pdf.summary_block overdue_only)
  = Pdf.totalPayments (Pdf.summary_block overdue_only)
  /\ PdfDouble.remainingAmount (PdfDouble.summary_amounts overdue_only) = 100.
Proof.
  split.
  - apply (proj1 (proj2 (pdf_summary_amounts overdue_only))).
    simpl. intros p [<- | []]. simpl. auto.
  - apply (proj2 (proj2 (pdf_summary_amounts overdue_only))).
    + simpl. intros p [<- | []]. simpl. lia.
    + vm_compute. discriminate.
Defined.

(* ================================================================== *)
(** * The car brand report *)
(* ================================================================== *)










(* ================================================================== *)
(** * History of a customer without payments, and the rows of the sheet *)
(* ================================================================== *)



Lemma excel_created_desc_total (a b : customer) :
  Excel.created_desc a b = true \/ Excel.created_desc b a = true.
Proof.
  unfold Excel.created_desc.
  destruct (null_first_total date_leb date_leb_total
              (creation_date a) (creation_date b)); auto.
Qed.

(** Below the header the sheet has the customers in descending order of
    creation date, and each row holds, column by column, the id, the name,
    the phone number, the car description, the five stored figures, the
    start date in the server's format, the stored total paid, the profit
    and the stored status: no column is left without its value. *)
Theorem excel_rows_in_order (toLocaleDateString : option date -> string)
    (db : store) :
  Sorted (fun a b => Sql.null_first_leb date_leb (creation_date b)
                                        (creation_date a) = true)
         (Excel.findAll db)
  /\ map Excel.cells (tl (Excel.rows (Excel.export toLocaleDateString db)))
     = map (fun c =>
              [ CNum (c_id c); CText (full_name c); CText (phone_number c);
                CText (Excel.carDetails c);
                Excel.number_cell (car_purchase_cost c);
                Excel.number_cell (leasing_amount c);
                Excel.number_cell (monthly_installment c);
                Excel.number_cell (lease_duration c);
                CText (toLocaleDateString (lease_start_date c));
                Excel.number_cell (total_paid c);
                match calculateProfit c with
                | Some f => f tt
                | None => CText ""
                end;
                CText (c_status c) ])
           (Excel.findAll db).
Proof.
  split.
  - apply (order_by_sorted Excel.created_desc excel_created_desc_total).
  - rewrite export_rows. cbn [tl]. rewrite map_map. cbn [Excel.cells].
    apply map_ext. intros c. apply addRow_cells.
Qed.


(* ================================================================== *)
(** * The elements of the grouped count *)
(* ================================================================== *)

(** With unique ids, the joined rows that carry the id of a customer are
    the customer joined with the partners the ON clause gives it. *)
Lemma group_block (on : customer -> payment -> bool) (db : store)
    (c : customer) :
  NoDup (map c_id (customers db)) ->
  In c (customers db) ->
  filter (fun r : customer * option payment => c_id (fst r) =? c_id c)
         (Sql.left_join on (customers db) (payments db))
  = padded c (filter (on c) (payments db)).
Proof.
  intros Hnd Hc. rewrite left_join_padded, filter_over_flat_map.
  rewrite (flat_map_ext _
             (fun a => if c_id a =? c_id c
                       then padded a (filter (on a) (payments db))
                       else []))
    by (intros a; apply (filter_padded (fun a => c_id a =? c_id c))).
  apply (flat_map_only (fun a => c_id a =? c_id c)
                       (fun a => padded a (filter (on a) (payments db)))).
  - exact Hc.
  - now apply (NoDup_map_inv c_id).
  - intros a Ha Hs. apply Z.eqb_eq in Hs.
    now apply (unique_id (customers db)).
  - apply Z.eqb_refl.
Qed.

Lemma no_pending_partner (db : store) (c : customer) :
  exists_pending (payments db) c = false ->
  filter (Dashboard.on_pending c) (payments db) = [].
Proof.
  intros H. apply filter_none. intros p Hp.
  destruct (Dashboard.on_pending c p) eqn:E; [| reflexivity].
  assert (Hex : exists_pending (payments db) c = true)
    by (apply existsb_exists; now exists p).
  congruence.
Qed.

(** With unique customer ids, the array the dashboard answers as
    [fullyPaidCustomers] holds, in some order, one element
    [{ id, count: 1 }] for each customer without a pending payment, and
    nothing else. *)
Theorem fully_paid_elements (db : store) (today : date) :
  NoDup (map c_id (customers db)) ->
  exists gs,
    Dashboard.fullyPaidCustomers (Dashboard.get db today)
    = Dashboard.VGroups gs
    /\ Permutation gs
         (map (fun c => Dashboard.mkGroup (c_id c) 1)
              (filter (fun c => negb (exists_pending (payments db) c))
                      (customers db))).
Proof.
  intros Hnd. eexists. split; [reflexivity |].
  set (groups := Sql.group_by Z.eqb
                   (fun r : customer * option payment => c_id (fst r))
                   (Sql.left_join Dashboard.on_pending
                                  (customers db) (payments db))).
  assert (Hgroup : forall c,
             In c (customers db) ->
             exists_pending (payments db) c = false ->
             In (c_id c, [(c, @None payment)]) groups
             /\ Dashboard.having_no_pending (c_id c, [(c, @None payment)])
                = true).
  { intros c Hc Hp. split; [| reflexivity].
    destruct (left_join_covers Dashboard.on_pending (customers db)
                (payments db) c Hc) as [p0 Hrow].
    apply (group_by_In _ Z.eqb_eq). split.
    - apply in_map_iff. now exists (c, p0).
    - rewrite (group_block Dashboard.on_pending db c Hnd Hc).
      now rewrite (no_pending_partner db c Hp). }
  apply NoDup_Permutation.
  - apply (NoDup_map_inv Dashboard.g_id). rewrite map_map.
    cbn [Dashboard.g_id].
    change (fun x : Z * list (customer * option payment) => fst x)
      with (@fst Z (list (customer * option payment))).
    apply NoDup_map_filter. unfold groups. rewrite group_by_keys.
    apply distinct_NoDup, Z.eqb_eq.
  - apply (NoDup_map_inv Dashboard.g_id). rewrite map_map.
    cbn [Dashboard.g_id]. now apply NoDup_map_filter.
  - intros g. rewrite !in_map_iff. split.
    + intros ([k grp] & <- & Hg). apply filter_In in Hg.
      destruct Hg as [Hg Hhav].
      assert (Hk : In k (map fst (filter Dashboard.having_no_pending groups))).
      { apply in_map_iff. exists (k, grp). split; [reflexivity |].
        now apply filter_In. }
      apply fully_paid_groups in Hk. destruct Hk as (c & Hc & <- & Hp).
      exists c. split.
      * apply (group_by_In _ Z.eqb_eq) in Hg. destruct Hg as [_ ->].
        rewrite (group_block Dashboard.on_pending db c Hnd Hc).
        now rewrite (no_pending_partner db c Hp).
      * apply filter_In. split; [exact Hc | now rewrite Hp].
    + intros (c & <- & Hc). apply filter_In in Hc. destruct Hc as [Hc Hp].
      apply negb_true_iff in Hp.
      destruct (Hgroup c Hc Hp) as [Hin Hhav].
      exists (c_id c, [(c, None)]). split; [reflexivity |].
      now apply filter_In.
Qed.

Lemma fully_paid_elements_witness :
  exists gs,
    Dashboard.fullyPaidCustomers (Dashboard.get two_leases a_day)
    = Dashboard.VGroups gs
    /\ Permutation gs [Dashboard.mkGroup 2 1].
Proof.
  apply (fully_paid_elements two_leases a_day).
  simpl. repeat constructor; simpl; intuition discriminate.
Defined.
